(** * WebSocketChat: a shallow embedding of the chat widget

    The development follows [src/WebSocketChat.js]: the React component
    [WebSocketChat] with its connection manager ([connectWS]), its send
    path ([sendMsg]), its typing debouncer ([notifyTyping]) and the three
    socket handlers.  The browser is modelled by the part of it the
    component talks to: a heap of [WebSocket] objects, the timer queue of
    the event loop, and the values [JSON.parse] produces.

    Conventions.
    - A JavaScript string is a Rocq [string].
    - A closure is the record of the state values it captured when the
      component rendered; handlers take it as an argument.
    - A [useRef] cell is a field of the state; [ws.current] holds a
      handle into the heap of sockets, or [None] for [null].
    - A state update ([setLog], [setMsg], ...) takes effect at once;
      [setLog] is always given an updater function, so that queued
      updates compose in the order of the calls.
    - Time is counted in milliseconds, and a timer runs in the
      millisecond in which it is due.
    - The component is mounted throughout; the effect of lines 98-105
      runs when [senderId] changes.
    - An exception that escapes a handler, a timer callback or the
      effect is recorded by the event loop ([uncaught]).  What React
      does with the page after that is not modelled; neither is an
      exception thrown while React computes or renders a log entry,
      after the handler has returned: the message handler is modelled on
      the payloads React can display (see [displayable]).

    The server-side router is not part of the sources; the last part of
    the definitions models it from the specification. *)

From Stdlib Require Import Ascii.
From stdpp Require Import base option list strings pretty gmap.

#[local] Set Warnings "-register-all".

(** ** JavaScript values *)

(** The values [JSON.parse] can return.  The type of numbers is left to
    the runtime (an IEEE double in a browser). *)
Inductive json (number : Type) : Type :=
| JNull
| JBool (b : bool)
| JNum (n : number)
| JStr (s : string)
| JArr (items : list (json number))
| JObj (fields : list (string * json number)).

Arguments JNull {number}.
Arguments JBool {number} b.
Arguments JNum {number} n.
Arguments JStr {number} s.
Arguments JArr {number} items.
Arguments JObj {number} fields.

(** The exceptions that the modelled calls can raise. *)
Inductive js_error : Type :=
| SyntaxError          (* JSON.parse on a text that is not JSON;
                          new WebSocket on a URL with a fragment *)
| TypeError            (* property access on null *)
| InvalidStateError.   (* WebSocket.send while CONNECTING *)

(** [window.location], read once when the module is loaded. *)
Record Location : Type := {
  protocol : string;
  host : string;
  hostname : string
}.

(** What the component takes from the JavaScript runtime. *)
Class Runtime : Type := {
  number : Type;
  (** ToBoolean on a Number: false for +0, -0 and NaN *)
  number_truthy : number -> bool;
  (** Number::toString *)
  number_to_string : number -> string;
  (** [JSON.parse]; [None] stands for the SyntaxError it throws *)
  JSON_parse : string -> option (json number);
  (** [JSON.stringify] *)
  JSON_stringify : json number -> string;
  location : Location
}.

(** The last binding of a key: duplicate keys of a JSON text overwrite
    one another, so the last one is the property's value. *)
Fixpoint lookup_last {A} (k : string) (fields : list (string * A)) : option A :=
  match fields with
  | [] => None
  | (k', v) :: rest =>
      match lookup_last k rest with
      | Some w => Some w
      | None => if String.eqb k' k then Some v else None
      end
  end.

Section Values.
Context {RT : Runtime}.

(** A value as an expression yields it: [None] is [undefined]. *)
Definition value : Type := option (json number).

(** ToBoolean. *)
Definition truthy (v : value) : bool :=
  match v with
  | None => false
  | Some JNull => false
  | Some (JBool b) => b
  | Some (JNum n) => number_truthy n
  | Some (JStr s) => negb (String.eqb s "")
  | Some (JArr _) => true
  | Some (JObj _) => true
  end.

(** ToString, as string concatenation applies it.  An array is joined
    with commas, null elements printing as the empty string.  An object
    prints through [Object.prototype.toString]; on an object with a key
    [toString] of its own the conversion throws instead, and such values
    are outside the domain of this function (see [convertible]). *)
Fixpoint ToString_json (v : json number) : string :=
  match v with
  | JNull => "null"
  | JBool true => "true"
  | JBool false => "false"
  | JNum n => number_to_string n
  | JStr s => s
  | JArr items =>
      let elem (x : json number) : string :=
        match x with JNull => "" | _ => ToString_json x end in
      (fix join (l : list (json number)) : string :=
         match l with
         | [] => ""
         | [x] => elem x
         | x :: rest => elem x +:+ "," +:+ join rest
         end) items
  | JObj _ => "[object Object]"
  end.

Definition ToString (v : value) : string :=
  match v with
  | None => "undefined"
  | Some j => ToString_json j
  end.

(** [v === s] for a string [s]. *)
Definition strict_eq_string (v : value) (s : string) : bool :=
  match v with
  | Some (JStr s') => String.eqb s' s
  | _ => false
  end.
End Values.

(** ** The state of the page *)

Section Model.
Context {RT : Runtime}.

(** A [WebSocket] object.  [readyState] is 0 (CONNECTING), 1 (OPEN),
    2 (CLOSING) or 3 (CLOSED).  The three handlers that [connectWS]
    installs are the same code for every socket; they differ only in
    the [senderId] their closure captured. *)
Record WebSocket : Type := {
  url : string;
  readyState : nat;
  ws_senderId : string
}.

(** The state values a render's closures capture. *)
Record closure : Type := {
  c_senderId : string;
  c_receiverId : string;
  c_msg : string
}.

(** The functions handed to [setTimeout]: [sendMsg] itself (line 63)
    and the arrow function of [notifyTyping] (line 80). *)
Inductive callback : Type :=
| CbSendMsg (c : closure)
| CbTyping (c : closure).

Record timer : Type := {
  tid : nat;
  due : nat;
  cb : callback
}.

(** An item of the log: a string, or one of the two elements the
    message handler builds, with its [key] and its child. *)
Inductive log_item : Type :=
| Plain (s : string)
| Elem_i (key : nat) (who : value)     (* <i key>{who} is typing...</i> *)
| Elem_b (key : nat) (label : value).  (* <b key>{label}:</b> *)

Record state : Type := {
  (* useState *)
  senderId : string;
  receiverId : string;
  msg : string;
  log : list log_item;
  (* useRef *)
  ws_current : option nat;
  lastSender : string;
  typingTimeout : option nat;
  (* the browser: sockets by handle, frames given to send, timers *)
  sockets : list WebSocket;
  wire : list (nat * string);
  timers : list timer;
  next_timer : nat;
  now : nat;
  (* the event loop's record of the timer callbacks it ran, and of the
     exceptions that escaped a task *)
  history : list (nat * callback);
  uncaught : list js_error
}.

Definition init : state := {|
  senderId := ""; receiverId := ""; msg := ""; log := [];
  ws_current := None; lastSender := ""; typingTimeout := None;
  sockets := []; wire := []; timers := []; next_timer := 1; now := 0;
  history := []; uncaught := []
|}.

Definition set_senderId (v : string) (s : state) : state :=
  {| senderId := v; receiverId := receiverId s; msg := msg s; log := log s;
     ws_current := ws_current s; lastSender := lastSender s;
     typingTimeout := typingTimeout s; sockets := sockets s; wire := wire s;
     timers := timers s; next_timer := next_timer s; now := now s;
     history := history s; uncaught := uncaught s |}.
Definition set_receiverId (v : string) (s : state) : state :=
  {| senderId := senderId s; receiverId := v; msg := msg s; log := log s;
     ws_current := ws_current s; lastSender := lastSender s;
     typingTimeout := typingTimeout s; sockets := sockets s; wire := wire s;
     timers := timers s; next_timer := next_timer s; now := now s;
     history := history s; uncaught := uncaught s |}.
Definition set_msg (v : string) (s : state) : state :=
  {| senderId := senderId s; receiverId := receiverId s; msg := v; log := log s;
     ws_current := ws_current s; lastSender := lastSender s;
     typingTimeout := typingTimeout s; sockets := sockets s; wire := wire s;
     timers := timers s; next_timer := next_timer s; now := now s;
     history := history s; uncaught := uncaught s |}.
Definition set_log (v : list log_item) (s : state) : state :=
  {| senderId := senderId s; receiverId := receiverId s; msg := msg s; log := v;
     ws_current := ws_current s; lastSender := lastSender s;
     typingTimeout := typingTimeout s; sockets := sockets s; wire := wire s;
     timers := timers s; next_timer := next_timer s; now := now s;
     history := history s; uncaught := uncaught s |}.
Definition set_ws_current (v : option nat) (s : state) : state :=
  {| senderId := senderId s; receiverId := receiverId s; msg := msg s; log := log s;
     ws_current := v; lastSender := lastSender s;
     typingTimeout := typingTimeout s; sockets := sockets s; wire := wire s;
     timers := timers s; next_timer := next_timer s; now := now s;
     history := history s; uncaught := uncaught s |}.
Definition set_lastSender (v : string) (s : state) : state :=
  {| senderId := senderId s; receiverId := receiverId s; msg := msg s; log := log s;
     ws_current := ws_current s; lastSender := v;
     typingTimeout := typingTimeout s; sockets := sockets s; wire := wire s;
     timers := timers s; next_timer := next_timer s; now := now s;
     history := history s; uncaught := uncaught s |}.
Definition set_typingTimeout (v : option nat) (s : state) : state :=
  {| senderId := senderId s; receiverId := receiverId s; msg := msg s; log := log s;
     ws_current := ws_current s; lastSender := lastSender s;
     typingTimeout := v; sockets := sockets s; wire := wire s;
     timers := timers s; next_timer := next_timer s; now := now s;
     history := history s; uncaught := uncaught s |}.
Definition set_sockets (v : list WebSocket) (s : state) : state :=
  {| senderId := senderId s; receiverId := receiverId s; msg := msg s; log := log s;
     ws_current := ws_current s; lastSender := lastSender s;
     typingTimeout := typingTimeout s; sockets := v; wire := wire s;
     timers := timers s; next_timer := next_timer s; now := now s;
     history := history s; uncaught := uncaught s |}.
Definition set_wire (v : list (nat * string)) (s : state) : state :=
  {| senderId := senderId s; receiverId := receiverId s; msg := msg s; log := log s;
     ws_current := ws_current s; lastSender := lastSender s;
     typingTimeout := typingTimeout s; sockets := sockets s; wire := v;
     timers := timers s; next_timer := next_timer s; now := now s;
     history := history s; uncaught := uncaught s |}.
Definition set_timers (v : list timer) (s : state) : state :=
  {| senderId := senderId s; receiverId := receiverId s; msg := msg s; log := log s;
     ws_current := ws_current s; lastSender := lastSender s;
     typingTimeout := typingTimeout s; sockets := sockets s; wire := wire s;
     timers := v; next_timer := next_timer s; now := now s;
     history := history s; uncaught := uncaught s |}.
Definition set_next_timer (v : nat) (s : state) : state :=
  {| senderId := senderId s; receiverId := receiverId s; msg := msg s; log := log s;
     ws_current := ws_current s; lastSender := lastSender s;
     typingTimeout := typingTimeout s; sockets := sockets s; wire := wire s;
     timers := timers s; next_timer := v; now := now s;
     history := history s; uncaught := uncaught s |}.
Definition set_now (v : nat) (s : state) : state :=
  {| senderId := senderId s; receiverId := receiverId s; msg := msg s; log := log s;
     ws_current := ws_current s; lastSender := lastSender s;
     typingTimeout := typingTimeout s; sockets := sockets s; wire := wire s;
     timers := timers s; next_timer := next_timer s; now := v;
     history := history s; uncaught := uncaught s |}.
Definition set_history (v : list (nat * callback)) (s : state) : state :=
  {| senderId := senderId s; receiverId := receiverId s; msg := msg s; log := log s;
     ws_current := ws_current s; lastSender := lastSender s;
     typingTimeout := typingTimeout s; sockets := sockets s; wire := wire s;
     timers := timers s; next_timer := next_timer s; now := now s;
     history := v; uncaught := uncaught s |}.
Definition set_uncaught (v : list js_error) (s : state) : state :=
  {| senderId := senderId s; receiverId := receiverId s; msg := msg s; log := log s;
     ws_current := ws_current s; lastSender := lastSender s;
     typingTimeout := typingTimeout s; sockets := sockets s; wire := wire s;
     timers := timers s; next_timer := next_timer s; now := now s;
     history := history s; uncaught := v |}.

(** ** Computations that read and write the state and may throw *)

Inductive outcome (A : Type) : Type :=
| Ret (a : A) (s : state)
| Exn (e : js_error) (s : state).
Arguments Ret {A} a s.
Arguments Exn {A} e s.

Definition M (A : Type) : Type := state -> outcome A.

Definition ret {A} (a : A) : M A := fun s => Ret a s.
Definition throw {A} (e : js_error) : M A := fun s => Exn e s.
Definition bind {A B} (m : M A) (k : A -> M B) : M B :=
  fun s => match m s with
           | Ret a s' => k a s'
           | Exn e s' => Exn e s'
           end.
Definition gets {A} (f : state -> A) : M A := fun s => Ret (f s) s.
Definition modify (f : state -> state) : M unit := fun s => Ret tt (f s).
(** [try { body } catch { handler }] *)
Definition try_catch {A} (body : M A) (handler : M A) : M A :=
  fun s => match body s with
           | Ret a s' => Ret a s'
           | Exn _ s' => handler s'
           end.

Definition final {A} (o : outcome A) : state :=
  match o with Ret _ s => s | Exn _ s => s end.
Definition threw {A} (o : outcome A) : bool :=
  match o with Ret _ _ => false | Exn _ _ => true end.
End Model.

Arguments Ret {RT A} a s.
Arguments Exn {RT A} e s.

Declare Scope js_scope.
Delimit Scope js_scope with js.
Notation "x <- m ;; k" := (bind m (fun x => k))
  (at level 100, m at next level, right associativity) : js_scope.
Notation "m ;; k" := (bind m (fun _ => k))
  (at level 100, right associativity) : js_scope.

(** ** The browser *)

Section Browser.
Context {RT : Runtime}.
Local Open Scope js_scope.

Definition DEPLOYED_WS_BASE_URL : string :=
  "wss://student-managment-api-ilmg.onrender.com/ws-demo/ws/chat/".

Definition LOCAL_WS_BASE_URL : string :=
  (if String.eqb (protocol location) "https:" then "wss://" else "ws://")
  +:+ host location +:+ "/ws-demo/ws/chat/".

Definition WS_BASE_URL : string :=
  if String.eqb (hostname location) "student-managment-api-ilmg.onrender.com"
  then DEPLOYED_WS_BASE_URL
  else LOCAL_WS_BASE_URL.

Definition with_readyState (r : nat) (w : WebSocket) : WebSocket :=
  {| url := url w; readyState := r; ws_senderId := ws_senderId w |}.

(** A URL has a fragment when a number sign occurs in it. *)
Fixpoint has_fragment (u : string) : bool :=
  match u with
  | EmptyString => false
  | String c r => Ascii.eqb c "#" || has_fragment r
  end.

(** [new WebSocket(url)]: a fresh object in state CONNECTING.  The
    constructor throws a SyntaxError on a URL that does not parse, on a
    scheme other than [ws] and [wss], and on a URL with a fragment.  The
    URLs of the component are [WS_BASE_URL] followed by an identity:
    their scheme is [ws] or [wss], their host is the host of the page,
    and the URL parser does not fail on what follows the host; the
    constructor therefore throws exactly when the URL has a fragment. *)
Definition new_WebSocket (u : string) (captured : string) : M nat :=
  fun s =>
    if has_fragment u then Exn SyntaxError s
    else
      Ret (length (sockets s))
          (set_sockets
             (sockets s ++ [{| url := u; readyState := 0; ws_senderId := captured |}])
             s).

(** [w.close()]: starts the closing handshake of a socket that is
    CONNECTING or OPEN, and does nothing on one that is CLOSING or CLOSED. *)
Definition ws_close (h : nat) : M unit :=
  modify (fun s =>
    match sockets s !! h with
    | Some w =>
        if Nat.ltb (readyState w) 2
        then set_sockets (<[h := with_readyState 2 w]> (sockets s)) s
        else s
    | None => s
    end).

(** [w.send(payload)]: throws while CONNECTING, transmits while OPEN, and
    discards the data once the socket is CLOSING or CLOSED. *)
Definition ws_send (h : nat) (payload : string) : M unit :=
  fun s =>
    match sockets s !! h with
    | Some w =>
        match readyState w with
        | 0 => Exn InvalidStateError s
        | 1 => Ret tt (set_wire (wire s ++ [(h, payload)]) s)
        | _ => Ret tt s
        end
    | None => Exn TypeError s
    end.

(** [setTimeout(f, delay)] returns the id of the timer it queues. *)
Definition setTimeout (f : callback) (delay : nat) : M nat :=
  fun s =>
    Ret (next_timer s)
        (set_next_timer (S (next_timer s))
           (set_timers
              (timers s ++ [{| tid := next_timer s; due := now s + delay; cb := f |}])
              s)).

(** [clearTimeout(id)]; an id that names no pending timer, and [null],
    are ignored. *)
Definition clearTimeout (id : option nat) : M unit :=
  modify (fun s =>
    match id with
    | Some i => set_timers (filter (fun t => tid t <> i) (timers s)) s
    | None => s
    end).

(** [obj.k] for the keys the message handler reads ([typing],
    [sender_id], [msg]): none of them is defined on a prototype, so only
    an object can have them, and reading them off [null] throws. *)
Definition get_field (obj : json number) (k : string) : M value :=
  match obj with
  | JNull => throw TypeError
  | JObj fields => ret (lookup_last k fields)
  | _ => ret None
  end.

(** [a && b], with [b] evaluated only when [a] is truthy. *)
Definition js_and (a : M value) (b : M value) : M value :=
  x <- a ;; if truthy x then b else ret x.

End Browser.

(** ** The component *)

Section Component.
Context {RT : Runtime}.
Local Open Scope js_scope.

(** [ws.current && ws.current.readyState === 1] *)
Definition ws_open (s : state) : bool :=
  match ws_current s with
  | Some h =>
      match sockets s !! h with
      | Some w => Nat.eqb (readyState w) 1
      | None => false
      end
  | None => false
  end.

Definition setLog (f : list log_item -> list log_item) : M unit :=
  modify (fun s => set_log (f (log s)) s).

(** Lines 24-57.  The argument is the [senderId] of the closure. *)
Definition connectWS (senderId : string) : M unit :=
  if String.eqb senderId "" then ret tt
  else
    opened <- gets ws_open ;;
    last <- gets lastSender ;;
    if opened && String.eqb last senderId then ret tt
    else
      cur <- gets ws_current ;;
      match cur with Some h => ws_close h | None => ret tt end ;;
      h <- new_WebSocket (WS_BASE_URL +:+ senderId) senderId ;;
      modify (set_ws_current (Some h)) ;;
      modify (set_lastSender senderId).

(** Lines 35-37. *)
Definition onopen : M unit :=
  setLog (fun l => l ++ [Plain "WebSocket connected"]).

(** Lines 38-53.  [senderId] is the one captured when the socket was
    created, [data] is [event.data], the text of the frame.  The
    arguments of [setLog] are updater functions, which React applies
    after the handler has returned, outside its [try]; the conversion of
    [msg] to a string in the updater of line 48 is total in this model
    (see [ToString_json]). *)
Definition onmessage (senderId : string) (data : string) : M unit :=
  try_catch
    (obj <- match JSON_parse data with
            | Some v => ret v
            | None => throw SyntaxError
            end ;;
     c1 <- js_and (get_field obj "typing") (get_field obj "sender_id") ;;
     if truthy c1 then
       who <- get_field obj "sender_id" ;;
       setLog (fun l => l ++ [Elem_i (length l) who])
     else
       c2 <- js_and (get_field obj "msg") (get_field obj "sender_id") ;;
       if truthy c2 then
         sid <- get_field obj "sender_id" ;;
         let label := if strict_eq_string sid senderId
                      then Some (JStr "You") else sid in
         m <- get_field obj "msg" ;;
         setLog (fun l => l ++ [Elem_b (length l) label; Plain (" " +:+ ToString m)])
       else ret tt)
    (setLog (fun l => l ++ [Plain data])).

(** Lines 54-56. *)
Definition onclose : M unit :=
  setLog (fun l => l ++ [Plain "WebSocket closed"]).

(** The object literal of lines 66-71. *)
Definition message_event (c : closure) : json number :=
  JObj [("sender_id", JStr (c_senderId c));
        ("receiver_id", JStr (c_receiverId c));
        ("msg", JStr (c_msg c));
        ("typing", JBool false)].

(** The object literal of lines 88-92. *)
Definition typing_event (c : closure) : json number :=
  JObj [("sender_id", JStr (c_senderId c));
        ("receiver_id", JStr (c_receiverId c));
        ("typing", JBool true)].

(** Lines 60-74. *)
Definition sendMsg (c : closure) : M unit :=
  opened <- gets ws_open ;;
  if negb opened then
    connectWS (c_senderId c) ;;
    setTimeout (CbSendMsg c) 300 ;;
    ret tt
  else
    cur <- gets ws_current ;;
    match cur with
    | Some h => ws_send h (JSON_stringify (message_event c))
    | None => throw TypeError
    end ;;
    modify (set_msg "").

(** The arrow function of lines 80-94. *)
Definition typing_fire (c : closure) : M unit :=
  opened <- gets ws_open ;;
  if negb opened || String.eqb (c_senderId c) "" || String.eqb (c_receiverId c) ""
  then ret tt
  else
    cur <- gets ws_current ;;
    match cur with
    | Some h => ws_send h (JSON_stringify (typing_event c))
    | None => throw TypeError
    end.

(** Lines 78-95. *)
Definition notifyTyping (c : closure) : M unit :=
  old <- gets typingTimeout ;;
  clearTimeout old ;;
  id <- setTimeout (CbTyping c) 100 ;;
  modify (set_typingTimeout (Some id)).

(** The cleanup of the effect, lines 101-103. *)
Definition effect_cleanup : M unit :=
  cur <- gets ws_current ;;
  match cur with Some h => ws_close h | None => ret tt end.

End Component.

(** ** The event loop *)

Section EventLoop.
Context {RT : Runtime}.
Local Open Scope js_scope.

(** What can happen to the page: the user edits a field or clicks Send,
    the network reports on a socket, a millisecond passes. *)
Inductive event : Type :=
| ChangeSender (v : string)
| ChangeReceiver (v : string)
| Input (v : string)
| ClickSend
| NetOpen (h : nat)
| NetMessage (h : nat) (data : string)
| NetClose (h : nat)
| Tick.

(** The closures of the current render. *)
Definition render_closure (s : state) : closure :=
  {| c_senderId := senderId s; c_receiverId := receiverId s; c_msg := msg s |}.

(** [setSenderId(v)] and the effect of lines 98-105, which React runs
    again (cleanup first) when [senderId] has changed. *)
Definition change_sender (v : string) : M unit :=
  old <- gets senderId ;;
  modify (set_senderId v) ;;
  if String.eqb old v then ret tt
  else effect_cleanup ;; connectWS v.

(** An input event on the message box runs [onInput] (line 126) and
    [onChange] (line 125); both see the closures of the current render. *)
Definition input_msg (v : string) : M unit :=
  c <- gets render_closure ;;
  notifyTyping c ;;
  modify (set_msg v).

Definition click_send : M unit :=
  c <- gets render_closure ;;
  sendMsg c.

(** The connection is established: CONNECTING becomes OPEN. *)
Definition net_open (h : nat) : M unit :=
  socks <- gets sockets ;;
  match socks !! h with
  | Some w =>
      if Nat.eqb (readyState w) 0 then
        modify (set_sockets (<[h := with_readyState 1 w]> socks)) ;;
        onopen
      else ret tt
  | None => ret tt
  end.

(** A text frame arrives; the browser delivers it only to an OPEN
    socket. *)
Definition net_message (h : nat) (data : string) : M unit :=
  socks <- gets sockets ;;
  match socks !! h with
  | Some w =>
      if Nat.eqb (readyState w) 1 then onmessage (ws_senderId w) data
      else ret tt
  | None => ret tt
  end.

(** The connection is gone (closed by either side, or failed). *)
Definition net_close (h : nat) : M unit :=
  socks <- gets sockets ;;
  match socks !! h with
  | Some w =>
      if Nat.ltb (readyState w) 3 then
        modify (set_sockets (<[h := with_readyState 3 w]> socks)) ;;
        onclose
      else ret tt
  | None => ret tt
  end.

(** A task runs to completion; an exception that escapes it is reported
    and the loop goes on. *)
Definition run_task (m : M unit) (s : state) : state :=
  match m s with
  | Ret _ s' => s'
  | Exn e s' => set_uncaught (uncaught s' ++ [e]) s'
  end.

Definition fire (t : timer) : M unit :=
  modify (fun s => set_history (history s ++ [(now s, cb t)]) s) ;;
  match cb t with
  | CbSendMsg c => sendMsg c
  | CbTyping c => typing_fire c
  end.

Fixpoint fire_all (ready : list timer) (s : state) : state :=
  match ready with
  | [] => s
  | t :: rest => fire_all rest (run_task (fire t) s)
  end.

(** One millisecond passes: the timers that are due leave the queue and
    run, in the order in which they were queued. *)
Definition tick (s : state) : state :=
  let s1 := set_now (S (now s)) s in
  let ready := filter (fun t => due t <= now s1) (timers s1) in
  let rest := filter (fun t => ~ due t <= now s1) (timers s1) in
  fire_all ready (set_timers rest s1).

Definition step (s : state) (e : event) : state :=
  match e with
  | ChangeSender v => run_task (change_sender v) s
  | ChangeReceiver v => run_task (modify (set_receiverId v)) s
  | Input v => run_task (input_msg v) s
  | ClickSend => run_task click_send s
  | NetOpen h => run_task (net_open h) s
  | NetMessage h data => run_task (net_message h data) s
  | NetClose h => run_task (net_close h) s
  | Tick => tick s
  end.

Fixpoint run (s : state) (es : list event) : state :=
  match es with
  | [] => s
  | e :: rest => run (step s e) rest
  end.

(** [n] milliseconds pass with no other event. *)
Fixpoint ticks (n : nat) (s : state) : state :=
  match n with
  | 0 => s
  | S k => ticks k (tick s)
  end.

(** The states the page can be in: the mounted component, then any
    sequence of events. *)
Inductive reachable : state -> Prop :=
| reachable_init : reachable init
| reachable_step s e : reachable s -> reachable (step s e).

End EventLoop.

(** ** A reference runtime

    An executable instance of [Runtime], on which the component can be
    run.  Numbers are the integers: a JSON number with a fraction or an
    exponent, and a [\u] escape beyond ASCII, are outside this instance
    and rejected by its parser.  The theorems below hold for every
    runtime and do not depend on it. *)

Module Reference.

Definition dquote : ascii := "034"%char.
Definition backslash : ascii := "092"%char.

Definition is_ws (c : ascii) : bool :=
  Ascii.eqb c " " || Ascii.eqb c "009" || Ascii.eqb c "010" || Ascii.eqb c "013".

Fixpoint skip_ws (s : string) : string :=
  match s with
  | String c r => if is_ws c then skip_ws r else s
  | EmptyString => s
  end.

Fixpoint strip_prefix (p s : string) : option string :=
  match p, s with
  | EmptyString, _ => Some s
  | String a p', String b s' => if Ascii.eqb a b then strip_prefix p' s' else None
  | String _ _, EmptyString => None
  end.

Definition digit_of (c : ascii) : option Z :=
  let n := nat_of_ascii c in
  if Nat.leb 48 n && Nat.leb n 57 then Some (Z.of_nat (n - 48)) else None.

Fixpoint parse_digits (acc : Z) (s : string) : Z * string :=
  match s with
  | String c r =>
      match digit_of c with
      | Some d => parse_digits (10 * acc + d) r
      | None => (acc, s)
      end
  | EmptyString => (acc, s)
  end.

(** After the integer part nothing of a number may follow. *)
Definition number_ends (s : string) : bool :=
  match s with
  | String c _ =>
      negb (Ascii.eqb c "." || Ascii.eqb c "e" || Ascii.eqb c "E"
            || bool_decide (is_Some (digit_of c)))
  | EmptyString => true
  end.

Definition parse_nat_literal (s : string) : option (Z * string) :=
  match s with
  | String c r =>
      match digit_of c with
      | Some 0%Z => if number_ends r then Some (0%Z, r) else None
      | Some d =>
          let '(n, r') := parse_digits d r in
          if number_ends r' then Some (n, r') else None
      | None => None
      end
  | EmptyString => None
  end.

Definition parse_number (s : string) : option (Z * string) :=
  match s with
  | String c r =>
      if Ascii.eqb c "-" then
        match parse_nat_literal r with
        | Some (n, r') => Some ((- n)%Z, r')
        | None => None
        end
      else parse_nat_literal s
  | EmptyString => None
  end.

Definition hex_of (c : ascii) : option nat :=
  let n := nat_of_ascii c in
  if Nat.leb 48 n && Nat.leb n 57 then Some (n - 48)
  else if Nat.leb 65 n && Nat.leb n 70 then Some (n - 55)
  else if Nat.leb 97 n && Nat.leb n 102 then Some (n - 87)
  else None.

(** The four hexadecimal digits of a [\u] escape. *)
Definition parse_u (s : string) : option (ascii * string) :=
  match s with
  | String a (String b (String c (String d r))) =>
      match hex_of a, hex_of b, hex_of c, hex_of d with
      | Some 0, Some 0, Some x, Some y =>
          if Nat.ltb (16 * x + y) 128 then Some (ascii_of_nat (16 * x + y), r) else None
      | _, _, _, _ => None
      end
  | _ => None
  end.

(** The characters of a string literal, after its opening quote. *)
Fixpoint parse_chars (fuel : nat) (s : string) : option (string * string) :=
  match fuel with
  | 0 => None
  | S f =>
      match s with
      | EmptyString => None
      | String c r =>
          if Ascii.eqb c dquote then Some (EmptyString, r)
          else if Ascii.eqb c backslash then
            match r with
            | String e r' =>
                let continue (x : ascii) (rest : string) :=
                  match parse_chars f rest with
                  | Some (t, r'') => Some (String x t, r'')
                  | None => None
                  end in
                if Ascii.eqb e dquote then continue dquote r'
                else if Ascii.eqb e backslash then continue backslash r'
                else if Ascii.eqb e "/" then continue "/"%char r'
                else if Ascii.eqb e "b" then continue "008"%char r'
                else if Ascii.eqb e "f" then continue "012"%char r'
                else if Ascii.eqb e "n" then continue "010"%char r'
                else if Ascii.eqb e "r" then continue "013"%char r'
                else if Ascii.eqb e "t" then continue "009"%char r'
                else if Ascii.eqb e "u" then
                  match parse_u r' with
                  | Some (x, r'') => continue x r''
                  | None => None
                  end
                else None
            | EmptyString => None
            end
          else if Nat.ltb (nat_of_ascii c) 32 then None
          else
            match parse_chars f r with
            | Some (t, r') => Some (String c t, r')
            | None => None
            end
      end
  end.

Definition parse_string (s : string) : option (string * string) :=
  match s with
  | String c r => if Ascii.eqb c dquote then parse_chars (String.length s) r else None
  | EmptyString => None
  end.

Section Sequences.
Variable A : Type.
Variable parse_one : string -> option (A * string).
Variable closing : ascii.

(** [x , x , ... x closing] *)
Fixpoint parse_seq (fuel : nat) (s : string) : option (list A * string) :=
  match fuel with
  | 0 => None
  | S f =>
      match parse_one s with
      | Some (v, r) =>
          match skip_ws r with
          | String c r' =>
              if Ascii.eqb c "," then
                match parse_seq f r' with
                | Some (vs, r'') => Some (v :: vs, r'')
                | None => None
                end
              else if Ascii.eqb c closing then Some ([v], r')
              else None
          | EmptyString => None
          end
      | None => None
      end
  end.
End Sequences.

Definition parse_member {A} (parse_val : string -> option (A * string)) (s : string)
  : option ((string * A) * string) :=
  match parse_string (skip_ws s) with
  | Some (k, r) =>
      match skip_ws r with
      | String c r' =>
          if Ascii.eqb c ":" then
            match parse_val r' with
            | Some (v, r'') => Some ((k, v), r'')
            | None => None
            end
          else None
      | EmptyString => None
      end
  | None => None
  end.

Fixpoint parse_value (fuel : nat) (s : string) : option (json Z * string) :=
  match fuel with
  | 0 => None
  | S f =>
      match skip_ws s with
      | EmptyString => None
      | String c r as s' =>
          if Ascii.eqb c "n" then
            match strip_prefix "ull" r with Some r' => Some (JNull, r') | None => None end
          else if Ascii.eqb c "t" then
            match strip_prefix "rue" r with Some r' => Some (JBool true, r') | None => None end
          else if Ascii.eqb c "f" then
            match strip_prefix "alse" r with Some r' => Some (JBool false, r') | None => None end
          else if Ascii.eqb c dquote then
            match parse_string s' with Some (t, r') => Some (JStr t, r') | None => None end
          else if Ascii.eqb c "[" then
            match skip_ws r with
            | String c' r' =>
                if Ascii.eqb c' "]" then Some (JArr [], r')
                else
                  match parse_seq _ (parse_value f) "]" (String.length r) (skip_ws r) with
                  | Some (vs, r'') => Some (JArr vs, r'')
                  | None => None
                  end
            | EmptyString => None
            end
          else if Ascii.eqb c "{" then
            match skip_ws r with
            | String c' r' =>
                if Ascii.eqb c' "}" then Some (JObj [], r')
                else
                  match parse_seq _ (parse_member (parse_value f)) "}"
                          (String.length r) (skip_ws r) with
                  | Some (kvs, r'') => Some (JObj kvs, r'')
                  | None => None
                  end
            | EmptyString => None
            end
          else
            match parse_number s' with
            | Some (n, r') => Some (JNum n, r')
            | None => None
            end
      end
  end.

Definition parse (s : string) : option (json Z) :=
  match parse_value (S (String.length s)) s with
  | Some (v, r) =>
      match skip_ws r with
      | EmptyString => Some v
      | String _ _ => None
      end
  | None => None
  end.

(** [JSON.stringify] of a string: quoted, with the quote, the backslash
    and the control characters escaped. *)
Definition hex_digit (n : nat) : ascii :=
  ascii_of_nat (if Nat.ltb n 10 then 48 + n else 87 + n).

Definition escape_char (c : ascii) : string :=
  let n := nat_of_ascii c in
  if Ascii.eqb c dquote then String backslash (String dquote EmptyString)
  else if Ascii.eqb c backslash then String backslash (String backslash EmptyString)
  else if Nat.eqb n 8 then String backslash "b"
  else if Nat.eqb n 12 then String backslash "f"
  else if Nat.eqb n 10 then String backslash "n"
  else if Nat.eqb n 13 then String backslash "r"
  else if Nat.eqb n 9 then String backslash "t"
  else if Nat.ltb n 32 then
    String backslash
      ("u00" +:+ String (hex_digit (n / 16)) (String (hex_digit (n mod 16)) EmptyString))
  else String c EmptyString.

Fixpoint escape (s : string) : string :=
  match s with
  | EmptyString => EmptyString
  | String c r => escape_char c +:+ escape r
  end.

Definition quote (s : string) : string :=
  String dquote (escape s +:+ String dquote EmptyString).

Fixpoint join (sep : string) (l : list string) : string :=
  match l with
  | [] => ""
  | [x] => x
  | x :: rest => x +:+ sep +:+ join sep rest
  end.

(** Properties are written in the order of the object literal (the keys
    of the events are not array indices, which a browser would move to
    the front). *)
Fixpoint stringify (v : json Z) : string :=
  match v with
  | JNull => "null"
  | JBool true => "true"
  | JBool false => "false"
  | JNum n => pretty n
  | JStr s => quote s
  | JArr items =>
      "[" +:+ join "," ((fix each (l : list (json Z)) : list string :=
                           match l with
                           | [] => []
                           | x :: rest => stringify x :: each rest
                           end) items) +:+ "]"
  | JObj fields =>
      "{" +:+ join "," ((fix each (l : list (string * json Z)) : list string :=
                           match l with
                           | [] => []
                           | (k, x) :: rest => (quote k +:+ ":" +:+ stringify x) :: each rest
                           end) fields) +:+ "}"
  end.

(** The page is served from [http://localhost:8000]. *)
Definition localhost : Location :=
  {| protocol := "http:"; host := "localhost:8000"; hostname := "localhost" |}.

#[export] Instance runtime : Runtime := {|
  number := Z;
  number_truthy := fun n => negb (Z.eqb n 0);
  number_to_string := pretty;
  JSON_parse := parse;
  JSON_stringify := stringify;
  location := localhost
|}.

End Reference.

(** ** Notions used to state the properties *)

Section Notions.
Context {RT : Runtime}.

(** A field of a parsed payload as the protocol reads it: only an object
    has fields. *)
Definition field (v : json number) (k : string) : value :=
  match v with
  | JObj fields => lookup_last k fields
  | _ => None
  end.

(** A payload the handler shows as a typing notice, resp. as a message. *)
Definition is_typing_event (v : json number) : bool :=
  truthy (field v "typing") && truthy (field v "sender_id").

Definition is_message_event (v : json number) : bool :=
  truthy (field v "msg") && truthy (field v "sender_id").

(** An event populates [msg] when it has the field, and [typing: true]
    when its [typing] field is the boolean true. *)
Definition populates_msg (v : json number) : bool :=
  bool_decide (is_Some (field v "msg")).

Definition populates_typing (v : json number) : bool :=
  match field v "typing" with
  | Some (JBool true) => true
  | _ => false
  end.

(** The frames the component writes are serialised events of one of the
    two shapes. *)
Inductive client_frame : string -> Prop :=
| frame_message c : client_frame (JSON_stringify (message_event c))
| frame_typing c : client_frame (JSON_stringify (typing_event c)).


(** The runs of [sendMsg] that a timer started. *)
Definition is_retry (entry : nat * callback) : bool :=
  match entry.2 with
  | CbSendMsg _ => true
  | CbTyping _ => false
  end.





(** *** Relations kept by computations *)

(** [m] takes every state to a state related to it, whether it returns
    or throws. *)
Definition preserves (R : relation state) {A} (m : M A) : Prop :=
  forall s, R s (final (m s)).

(** The log of [s'] is the log of [s] followed by further entries. *)
Definition log_grows (s s' : state) : Prop := log s `prefix_of` log s'.

(** The handler writes to the log and to nothing else. *)
Definition only_log (s s' : state) : Prop := exists l, s' = set_log l s.

(** The frames on the wire only accumulate, and each new one is a
    serialised message event or typing event. *)
Definition wire_grows (s s' : state) : Prop :=
  exists new, wire s' = wire s ++ new /\ Forall (fun f => client_frame f.2) new.

(** *** The connection manager *)

(** The heap after [close()] on the socket [cur] refers to. *)
Definition closed_current (cur : option nat) (socks : list WebSocket) : list WebSocket :=
  match cur with
  | Some h =>
      match socks !! h with
      | Some w => if readyState w <? 2 then <[h := with_readyState 2 w]> socks else socks
      | None => socks
      end
  | None => socks
  end.

(** No socket of the heap is CONNECTING or OPEN but, possibly, [cur]. *)
Definition only_live (cur : option nat) (socks : list WebSocket) : Prop :=
  forall h w, socks !! h = Some w -> readyState w < 2 -> cur = Some h.

(** The state after [connectWS] has replaced the socket: the old one
    closed, a new one created for [id] and referred to by [ws.current]. *)
Definition reconnected (id : string) (s : state) : state :=
  set_lastSender id
    (set_ws_current (Some (length (sockets s)))
       (set_sockets
          (closed_current (ws_current s) (sockets s)
           ++ [{| url := WS_BASE_URL +:+ id; readyState := 0; ws_senderId := id |}])
          s)).

(** The state after the constructor has thrown in [connectWS]: [close()]
    has been called on the old socket, and nothing else has happened. *)
Definition disconnected (s : state) : state :=
  set_sockets (closed_current (ws_current s) (sockets s)) s.

(** [connectWS id] does not throw: it returns before it reaches the
    constructor (line 25), or the constructor accepts the URL of [id]. *)
Definition accepted (id : string) : bool :=
  String.eqb id "" || negb (has_fragment (WS_BASE_URL +:+ id)).

(** The invariant of the connection manager, and its preservation. *)
Definition one_live (s : state) : Prop := only_live (ws_current s) (sockets s).

Definition keeps_one_live (s s' : state) : Prop := one_live s -> one_live s'.

(** *** Timers *)


(** No retry of [sendMsg] is pending. *)
Definition no_retry_pending (s : state) : Prop :=
  forall t c, t ∈ timers s -> cb t <> CbSendMsg c.

(** Every pending callback of the debouncer is the one
    [typingTimeout.current] names. *)
Definition typing_designated (s : state) : Prop :=
  forall t c, t ∈ timers s -> cb t = CbTyping c -> typingTimeout s = Some (tid t).

(** What the callback of the debouncer writes when it runs in [s]. *)
Definition typing_frames (c : closure) (s : state) : list (nat * string) :=
  match ws_current s with
  | Some h =>
      if ws_open s && negb (String.eqb (c_senderId c) "")
         && negb (String.eqb (c_receiverId c) "")
      then [(h, JSON_stringify (typing_event c))]
      else []
  | None => []
  end.


(** Two states that differ at most in the draft, the timers and the clock. *)
Definition same_page (s s' : state) : Prop :=
  senderId s' = senderId s /\ receiverId s' = receiverId s
  /\ sockets s' = sockets s /\ ws_current s' = ws_current s
  /\ history s' = history s /\ wire s' = wire s
  /\ uncaught s' = uncaught s /\ log s' = log s.

(** Preservation of [typing_designated]. *)
Definition keeps_designated (s s' : state) : Prop :=
  typing_designated s -> typing_designated s'.

(** *** Scenarios *)


(** The user "u1" is connected and talks to "u2". *)
Definition connected : state :=
  run init [ChangeSender "u1"; ChangeReceiver "u2"; NetOpen 0].

(** The same, with the connection still being established. *)
Definition connecting : state :=
  run init [ChangeSender "u1"; ChangeReceiver "u2"].


(** *** Further invariants of the page *)

(** [m] returns normally from every state. *)
Definition returns {A} (m : M A) : Prop := forall s, threw (m s) = false.

(** Two states with the same record of uncaught exceptions, resp. with
    the same frames on the wire. *)
Definition uncaught_kept (s s' : state) : Prop := uncaught s' = uncaught s.

Definition wire_kept (s s' : state) : Prop := wire s' = wire s.

(** Every socket was created for a non-empty identity and is addressed
    by it, and [lastSender.current] is the identity of the socket
    [ws.current] refers to (the empty string when there is none). *)
Definition addressed (s : state) : Prop :=
  (forall h w, sockets s !! h = Some w ->
               url w = WS_BASE_URL +:+ ws_senderId w /\ ws_senderId w <> "")
  /\ match ws_current s with
     | Some h => exists w, sockets s !! h = Some w /\ ws_senderId w = lastSender s
     | None => lastSender s = ""
     end.

Definition keeps_addressed (s s' : state) : Prop := addressed s -> addressed s'.

(** The pending timers of the debouncer. *)
Definition is_typing_timer (t : timer) : bool :=
  match cb t with
  | CbTyping _ => true
  | CbSendMsg _ => false
  end.

Definition typing_timers (s : state) : list timer :=
  List.filter is_typing_timer (timers s).

(** The debouncer has at most one timer pending, and it is the one
    [typingTimeout.current] names. *)
Definition one_debounce (s : state) : Prop :=
  typing_designated s /\ length (typing_timers s) <= 1.

Definition keeps_one_debounce (s s' : state) : Prop :=
  one_debounce s -> one_debounce s'.

(** The key of every element of the log is its position in the log. *)
Definition keyed (l : list log_item) : Prop :=
  forall i k v, l !! i = Some (Elem_i k v) \/ l !! i = Some (Elem_b k v) -> k = i.

Definition keeps_keyed (s s' : state) : Prop := keyed (log s) -> keyed (log s').

(** Timer ids are handed out in increasing order, and the id the
    debouncer holds is never the id of a pending retry of [sendMsg]. *)
Definition ids_fresh (s : state) : Prop :=
  (forall t, t ∈ timers s -> tid t < next_timer s)
  /\ (forall i, typingTimeout s = Some i -> i < next_timer s)
  /\ (forall t c, t ∈ timers s -> cb t = CbSendMsg c -> typingTimeout s <> Some (tid t)).

Definition keeps_ids_fresh (s s' : state) : Prop := ids_fresh s -> ids_fresh s'.

(** Two states with the same sockets and the same [ws.current]. *)
Definition conn_kept (s s' : state) : Prop :=
  sockets s' = sockets s /\ ws_current s' = ws_current s.

(** A retry queued under the identity "u1" is about to run, and the
    user has changed the identity to "u2" in the meantime. *)
Definition stale_retry : state :=
  step (ticks 299 (run init [ChangeSender "u1"; ClickSend])) (ChangeSender "u2").

(** The user "u1" has typed a draft for "u2" while the socket is still
    connecting, and the debouncer has run. *)
Definition drafted : state :=
  ticks 100 (run init [ChangeSender "u1"; ChangeReceiver "u2"; Input "hi"]).

(** *** The retries of a send *)

(** From [s] to [s'] no time has passed, the record of the callbacks run
    has grown, and every pending retry of [sendMsg] is still pending. *)
Definition retries_kept (s s' : state) : Prop :=
  now s' = now s
  /\ history s `prefix_of` history s'
  /\ forall t c, t ∈ timers s -> cb t = CbSendMsg c -> t ∈ timers s'.


(** *** The debouncer among other timers *)

(** The runs of the debouncer's callback that the event loop recorded. *)
Definition typing_runs (s : state) : list (nat * callback) :=
  List.filter (fun entry => negb (is_retry entry)) (history s).

(** A frame that is a serialised message event. *)
Definition message_frame (f : nat * string) : Prop :=
  exists c, f.2 = JSON_stringify (message_event c).

(** From [s] to [s'] the debouncer's callback has not run, the
    identities on the page are the same, and what was written to the
    socket are messages. *)
Definition only_messages (s s' : state) : Prop :=
  typing_runs s' = typing_runs s
  /\ senderId s' = senderId s /\ receiverId s' = receiverId s
  /\ exists sent, wire s' = wire s ++ sent /\ Forall message_frame sent.

(** The same timers of the debouncer are pending. *)
Definition debounce_kept (s s' : state) : Prop :=
  typing_timers s' = typing_timers s.


(** *** What the page can show *)

(** What React renders as a child of an element: a string or a number
    as text, a boolean or [null] as nothing, an array as its elements.
    An object is not a valid child: rendering it throws. *)
Fixpoint renderable_json (v : json number) : bool :=
  match v with
  | JObj _ => false
  | JArr items =>
      (fix all (l : list (json number)) : bool :=
         match l with
         | [] => true
         | x :: rest => renderable_json x && all rest
         end) items
  | _ => true
  end.

Definition renderable (v : value) : bool :=
  match v with
  | None => true
  | Some j => renderable_json j
  end.

(** The values on which ToString returns.  An object parsed from JSON
    inherits [toString] from [Object.prototype], unless it has a key
    [toString] of its own: the value of that key is not a function, and
    the conversion throws a TypeError.  An array converts its elements. *)
Fixpoint convertible_json (v : json number) : bool :=
  match v with
  | JObj fields => negb (bool_decide (is_Some (lookup_last "toString" fields)))
  | JArr items =>
      (fix all (l : list (json number)) : bool :=
         match l with
         | [] => true
         | x :: rest => convertible_json x && all rest
         end) items
  | _ => true
  end.

Definition convertible (v : value) : bool :=
  match v with
  | None => true
  | Some j => convertible_json j
  end.

(** A payload whose display goes through: what the handler makes of it
    can be built (the updater of line 48 converts [msg] to a string) and
    rendered (the sender is a child of the element). *)
Definition displayable (data : string) : bool :=
  match JSON_parse data with
  | Some v =>
      if is_typing_event v then renderable (field v "sender_id")
      else if is_message_event v
           then renderable (field v "sender_id") && convertible (field v "msg")
           else true
  | None => true
  end.

(** *** Identities the constructor accepts *)

(** The identity on the page and the identities captured by the pending
    retries of [sendMsg] are accepted by the constructor. *)
Definition identities_accepted (s : state) : Prop :=
  accepted (senderId s) = true
  /\ forall t c, t ∈ timers s -> cb t = CbSendMsg c -> accepted (c_senderId c) = true.

(** An event that brings no identity the constructor rejects and no
    payload that cannot be displayed. *)
Definition event_safe (e : event) : Prop :=
  match e with
  | ChangeSender v => accepted v = true
  | NetMessage _ data => displayable data = true
  | _ => True
  end.



End Notions.

(** ** The message router *)

Module Router.

(** Modelled from the spec: the server-side Message Router (section 4.3),
    whose code is not among the sources of the repository.  The router
    keeps a registry from Identity to the open channel of that identity;
    a new connection replaces and closes the channel registered before
    (last writer wins); an inbound Event is forwarded unmodified to the
    channel registered for its [receiver_id], or discarded when there is
    none; a closing channel removes the entry only if the entry still
    refers to it. *)
Record Event : Type := {
  sender_id : string;
  receiver_id : string;
  msg : option string;
  typing : option bool
}.

(** The router's state: the registry, and what it has done to its
    channels, namely every frame it wrote (with the channel written to)
    and every channel it closed. *)
Record router : Type := {
  registry : gmap string nat;
  written : list (nat * Event);
  closed : list nat
}.

Definition empty : router :=
  {| registry := ∅; written := []; closed := [] |}.

Definition on_connect (id : string) (ch : nat) (r : router) : router :=
  {| registry := <[id := ch]> (registry r);
     written := written r;
     closed := match registry r !! id with
               | Some old => closed r ++ [old]
               | None => closed r
               end |}.

Definition on_event (from : nat) (e : Event) (r : router) : router :=
  match registry r !! receiver_id e with
  | Some ch =>
      {| registry := registry r;
         written := written r ++ [(ch, e)];
         closed := closed r |}
  | None => r
  end.

Definition on_close (id : string) (ch : nat) (r : router) : router :=
  match registry r !! id with
  | Some ch' =>
      if decide (ch' = ch)
      then {| registry := delete id (registry r);
              written := written r;
              closed := closed r |}
      else r
  | None => r
  end.

(** The frames written to one channel. *)
Definition written_to (ch : nat) (r : router) : list Event :=
  snd <$> List.filter (fun f => Nat.eqb f.1 ch) (written r).

End Router.

(** * Properties *)

(** ** Relations kept by every computation *)

Section Preservation.
Context {RT : Runtime}.
Variable R : relation state.
Context `{!PreOrder R}.

Lemma preserves_ret {A} (a : A) : preserves R (ret a).
Proof. intros s. reflexivity. Qed.

Lemma preserves_throw {A} e : preserves R (@throw RT A e).
Proof. intros s. reflexivity. Qed.

Lemma preserves_gets {A} (f : state -> A) : preserves R (gets f).
Proof. intros s. reflexivity. Qed.

Lemma preserves_modify f : (forall s, R s (f s)) -> preserves R (modify f).
Proof. intros H s. apply H. Qed.

Lemma preserves_bind {A B} (m : M A) (k : A -> M B) :
  preserves R m -> (forall a, preserves R (k a)) -> preserves R (bind m k).
Proof.
  intros Hm Hk s. unfold bind. specialize (Hm s).
  destruct (m s) as [a s'|e s']; simpl in *; [|exact Hm].
  etransitivity; [exact Hm|apply Hk].
Qed.

Lemma preserves_try_catch {A} (body handler : M A) :
  preserves R body -> preserves R handler -> preserves R (try_catch body handler).
Proof.
  intros Hb Hh s. unfold try_catch. specialize (Hb s).
  destruct (body s) as [a s'|e s']; simpl in *; [exact Hb|].
  etransitivity; [exact Hb|apply Hh].
Qed.

Lemma preserves_run_task (m : M unit) :
  (forall v s, R s (set_uncaught v s)) ->
  preserves R m -> forall s, R s (run_task m s).
Proof.
  intros Hu Hm s. unfold run_task. specialize (Hm s).
  destruct (m s) as [a s'|e s']; simpl in *; [exact Hm|].
  etransitivity; [exact Hm|apply Hu].
Qed.

End Preservation.

(** Takes a goal [preserves R m] apart along the structure of [m]. *)
Ltac preserves_split :=
  repeat match goal with
    | |- preserves _ (ret _) => apply preserves_ret; apply _
    | |- preserves _ (throw _) => apply preserves_throw; apply _
    | |- preserves _ (gets _) => apply preserves_gets; apply _
    | |- preserves _ (bind _ _) => apply preserves_bind; [apply _| |intros ?]
    | |- preserves _ (try_catch _ _) => apply preserves_try_catch; [apply _| |]
    | |- preserves _ (match ?x with _ => _ end) => destruct x
    end.

(** ** The log only grows *)

Section Log.
Context {RT : Runtime}.

#[local] Instance log_grows_preorder : PreOrder log_grows.
Proof.
  split.
  - intros s. unfold log_grows. reflexivity.
  - intros s1 s2 s3 H12 H23. unfold log_grows in *. etransitivity; eassumption.
Qed.

Lemma log_grows_same s s' : log s' = log s -> log_grows s s'.
Proof. intros H. unfold log_grows. rewrite H. reflexivity. Qed.

Lemma setLog_appends items :
  preserves log_grows (setLog (fun l => l ++ items)).
Proof. intros s. simpl. unfold log_grows. simpl. apply prefix_app_r. reflexivity. Qed.

Lemma setLog_appends_keyed (items : nat -> list log_item) :
  preserves log_grows (setLog (fun l => l ++ items (length l))).
Proof. intros s. simpl. unfold log_grows. simpl. apply prefix_app_r. reflexivity. Qed.

Lemma ws_close_log h : preserves log_grows (ws_close h).
Proof.
  intros s. apply log_grows_same. unfold ws_close, modify. simpl.
  destruct (sockets s !! h) as [w|]; [|reflexivity].
  destruct (readyState w <? 2); reflexivity.
Qed.

Lemma ws_send_log h p : preserves log_grows (ws_send h p).
Proof.
  intros s. apply log_grows_same. unfold ws_send.
  destruct (sockets s !! h) as [w|]; [|reflexivity].
  destruct (readyState w) as [|[|n]]; reflexivity.
Qed.

Lemma new_WebSocket_log u c : preserves log_grows (new_WebSocket u c).
Proof.
  intros s. apply log_grows_same. unfold new_WebSocket.
  destruct (has_fragment u); reflexivity.
Qed.

Lemma setTimeout_log f d : preserves log_grows (setTimeout f d).
Proof. intros s. apply log_grows_same. reflexivity. Qed.

Lemma clearTimeout_log id : preserves log_grows (clearTimeout id).
Proof. intros s. apply log_grows_same. destruct id; reflexivity. Qed.

Lemma get_field_log obj k : preserves log_grows (get_field obj k).
Proof. destruct obj; intros st; apply log_grows_same; reflexivity. Qed.

Lemma js_and_log a b :
  preserves log_grows a -> preserves log_grows b -> preserves log_grows (js_and a b).
Proof. intros Ha Hb. unfold js_and. preserves_split; assumption. Qed.

Lemma connectWS_log id : preserves log_grows (connectWS id).
Proof.
  unfold connectWS. preserves_split;
    try apply ws_close_log; try apply new_WebSocket_log;
    apply preserves_modify; intros s; apply log_grows_same; reflexivity.
Qed.

Lemma onopen_log : preserves log_grows onopen.
Proof. apply setLog_appends. Qed.

Lemma onclose_log : preserves log_grows onclose.
Proof. apply setLog_appends. Qed.

Lemma onmessage_log id data : preserves log_grows (onmessage id data).
Proof.
  unfold onmessage. preserves_split;
    try (apply js_and_log); try apply get_field_log; try apply setLog_appends.
  - apply (setLog_appends_keyed (fun n => [Elem_i n _])).
  - apply (setLog_appends_keyed (fun n => [Elem_b n _; Plain _])).
Qed.

Lemma sendMsg_log c : preserves log_grows (sendMsg c).
Proof.
  unfold sendMsg. preserves_split;
    try apply connectWS_log; try apply setTimeout_log; try apply ws_send_log.
  apply preserves_modify; intros s; apply log_grows_same; reflexivity.
Qed.

Lemma typing_fire_log c : preserves log_grows (typing_fire c).
Proof. unfold typing_fire. preserves_split. apply ws_send_log. Qed.

Lemma notifyTyping_log c : preserves log_grows (notifyTyping c).
Proof.
  unfold notifyTyping. preserves_split;
    try apply clearTimeout_log; try apply setTimeout_log.
  apply preserves_modify; intros s; apply log_grows_same; reflexivity.
Qed.

Lemma fire_log t : preserves log_grows (fire t).
Proof.
  unfold fire. preserves_split;
    try apply sendMsg_log; try apply typing_fire_log.
  apply preserves_modify; intros s; apply log_grows_same; reflexivity.
Qed.

Lemma run_task_log m s : preserves log_grows m -> log_grows s (run_task m s).
Proof.
  intros H. apply preserves_run_task; [apply _| |exact H].
  intros v s0. apply log_grows_same. reflexivity.
Qed.

Lemma fire_all_log ready s : log_grows s (fire_all ready s).
Proof.
  revert s. induction ready as [|t rest IH]; intros s; simpl.
  - reflexivity.
  - etransitivity; [apply run_task_log, fire_log|apply IH].
Qed.

Lemma tick_log s : log_grows s (tick s).
Proof.
  unfold tick. etransitivity; [|apply fire_all_log].
  apply log_grows_same. reflexivity.
Qed.

Lemma step_log s e : log_grows s (step s e).
Proof.
  destruct e; simpl; try apply tick_log; apply run_task_log.
  - unfold change_sender, effect_cleanup. preserves_split;
      try apply ws_close_log; try apply connectWS_log.
    apply preserves_modify; intros s0; apply log_grows_same; reflexivity.
  - apply preserves_modify; intros s0; apply log_grows_same; reflexivity.
  - unfold input_msg. preserves_split; try apply notifyTyping_log.
    apply preserves_modify; intros s0; apply log_grows_same; reflexivity.
  - unfold click_send. preserves_split. apply sendMsg_log.
  - unfold net_open. preserves_split; try apply onopen_log.
    apply preserves_modify; intros s0; apply log_grows_same; reflexivity.
  - unfold net_message. preserves_split. apply onmessage_log.
  - unfold net_close. preserves_split; try apply onclose_log.
    apply preserves_modify; intros s0; apply log_grows_same; reflexivity.
Qed.

(** C9.  The log is append-only: each of the three socket handlers
    appends to the log of the state it runs in, and along every sequence
    of events (user input, network events, timers) the log of the state
    reached is the log of the starting state followed by the entries
    added since; no entry is removed or reordered. *)
Theorem log_append_only :
  (forall s, exists entry, final (onopen s) = set_log (log s ++ [entry]) s)
  /\ (forall s, exists entry, final (onclose s) = set_log (log s ++ [entry]) s)
  /\ (forall id data s, exists added, log (final (onmessage id data s)) = log s ++ added)
  /\ (forall s e, exists added, log (step s e) = log s ++ added)
  /\ (forall s es, exists added, log (run s es) = log s ++ added).
Proof.
  split; [|split; [|split; [|split]]].
  - intros s. eexists. reflexivity.
  - intros s. eexists. reflexivity.
  - intros id data s. apply (onmessage_log id data s).
  - intros s e. apply (step_log s e).
  - intros s es. revert s. induction es as [|e rest IH]; intros s; simpl.
    + exists []. symmetry. apply app_nil_r.
    + destruct (step_log s e) as [a1 H1]. destruct (IH (step s e)) as [a2 H2].
      exists (a1 ++ a2). rewrite H2, H1. symmetry. apply app_assoc.
Qed.

End Log.

(** ** The message handler *)

Section Handler.
Context {RT : Runtime}.

Lemma truthy_js_and (a b : value) :
  truthy (if truthy a then b else a) = truthy a && truthy b.
Proof. destruct (truthy a) eqn:Ha; simpl; [reflexivity|exact Ha]. Qed.

(** Whatever the body of the [try] does, the handler returns. *)
Lemma try_setLog_returns (body : M unit) f s :
  exists s', try_catch body (setLog f) s = Ret tt s'.
Proof.
  unfold try_catch. destruct (body s) as [[] s'|e s'].
  - exists s'. reflexivity.
  - eexists. reflexivity.
Qed.

Lemma onmessage_returns id data s :
  exists s', onmessage id data s = Ret tt s'.
Proof. unfold onmessage. apply try_setLog_returns. Qed.

Lemma onmessage_syntax_error id data s :
  JSON_parse data = None ->
  onmessage id data s = Ret tt (set_log (log s ++ [Plain data]) s).
Proof.
  intros Hp. unfold onmessage, try_catch, bind. rewrite Hp. reflexivity.
Qed.

Lemma onmessage_null id data s :
  JSON_parse data = Some JNull ->
  onmessage id data s = Ret tt (set_log (log s ++ [Plain data]) s).
Proof.
  intros Hp. unfold onmessage, try_catch, bind. rewrite Hp. reflexivity.
Qed.

Lemma bind_ret_eq {A B} (m : M A) (k : A -> M B) s a s' :
  m s = Ret a s' -> bind m k s = k a s'.
Proof. intros H. unfold bind. rewrite H. reflexivity. Qed.

Lemma get_field_nonnull v k s :
  v <> JNull -> get_field v k s = Ret (field v k) s.
Proof. intros H. destruct v; try reflexivity. congruence. Qed.

Lemma js_and_nonnull v k1 k2 s :
  v <> JNull ->
  js_and (get_field v k1) (get_field v k2) s
  = Ret (if truthy (field v k1) then field v k2 else field v k1) s.
Proof.
  intros H. unfold js_and.
  rewrite (bind_ret_eq _ _ s (field v k1) s) by (apply get_field_nonnull, H).
  destruct (truthy (field v k1)); [apply get_field_nonnull, H|reflexivity].
Qed.

(** On a value other than [null] the two tests of the handler are the
    two predicates. *)
Lemma onmessage_ignored id data v s :
  JSON_parse data = Some v -> v <> JNull ->
  is_typing_event v = false -> is_message_event v = false ->
  onmessage id data s = Ret tt s.
Proof.
  intros Hp Hnull Ht Hm.
  unfold is_typing_event, is_message_event in *.
  unfold onmessage, try_catch.
  rewrite (bind_ret_eq _ _ s v s) by (rewrite Hp; reflexivity).
  rewrite (bind_ret_eq _ _ s _ s) by (apply js_and_nonnull, Hnull).
  rewrite truthy_js_and, Ht.
  rewrite (bind_ret_eq _ _ s _ s) by (apply js_and_nonnull, Hnull).
  rewrite truthy_js_and, Hm. reflexivity.
Qed.

#[local] Instance only_log_preorder : PreOrder only_log.
Proof.
  split.
  - intros s. exists (log s). destruct s; reflexivity.
  - intros s1 s2 s3 [l1 ->] [l2 ->]. exists l2. reflexivity.
Qed.

Lemma setLog_only_log f : preserves only_log (setLog f).
Proof. intros s. eexists. reflexivity. Qed.

Lemma get_field_only_log obj k : preserves only_log (get_field obj k).
Proof. destruct obj; intros st; reflexivity. Qed.

Lemma onmessage_only_log id data : preserves only_log (onmessage id data).
Proof.
  unfold onmessage, js_and. preserves_split;
    try apply get_field_only_log; apply setLog_only_log.
Qed.

Lemma net_message_only_log h data s :
  exists l, step s (NetMessage h data) = set_log l s.
Proof.
  simpl. unfold run_task, net_message.
  rewrite (bind_ret_eq _ _ s (sockets s) s) by reflexivity.
  destruct (sockets s !! h) as [w|]; [|apply (reflexivity (R := only_log))].
  destruct (readyState w =? 1); [|apply (reflexivity (R := only_log))].
  destruct (onmessage_returns (ws_senderId w) data s) as [s' Hs'].
  rewrite Hs'. pose proof (onmessage_only_log (ws_senderId w) data s) as H.
  rewrite Hs' in H. exact H.
Qed.

(** C5.  A payload that [JSON.parse] rejects is appended to the log as
    it came, as plain text, and nothing else changes; and for every
    payload whatsoever the handler returns normally: no exception leaves
    it, and delivering a frame changes nothing but the log (the event
    loop records no uncaught exception). *)
Theorem malformed_payload_is_logged id data s :
  JSON_parse data = None ->
  onmessage id data s = Ret tt (set_log (log s ++ [Plain data]) s)
  /\ (forall id' data' s0, threw (onmessage id' data' s0) = false)
  /\ (forall h data' s0, exists l, step s0 (NetMessage h data') = set_log l s0).
Proof.
  intros Hp. split; [|split].
  - apply onmessage_syntax_error, Hp.
  - intros id' data' s0. destruct (onmessage_returns id' data' s0) as [s' ->].
    reflexivity.
  - intros h data' s0. apply net_message_only_log.
Qed.

(** C10, as amended.  A payload that parses to a value other than [null]
    and that the handler takes neither for a typing event nor for a
    message is ignored: the handler returns normally and the state, the
    log included, is unchanged.  The payload [null] parses, is neither,
    and yet is appended to the log as plain text, as a payload that does
    not parse is: reading a field off [null] throws inside the [try]. *)
Theorem unrecognised_payload_is_ignored id data v s :
  JSON_parse data = Some v ->
  is_typing_event v = false ->
  is_message_event v = false ->
  (v <> JNull -> onmessage id data s = Ret tt s)
  /\ (v = JNull -> onmessage id data s = Ret tt (set_log (log s ++ [Plain data]) s)).
Proof.
  intros Hp Ht Hm. split.
  - intros Hn. eapply onmessage_ignored; eassumption.
  - intros ->. apply onmessage_null, Hp.
Qed.

(** A payload the handler does take for a typing event or a message is
    shown: one element for a typing notice, a label and a text for a
    message, the label being "You" for the identity of the socket. *)
Lemma onmessage_typing id data v s :
  JSON_parse data = Some v -> is_typing_event v = true ->
  onmessage id data s
  = Ret tt (set_log (log s ++ [Elem_i (length (log s)) (field v "sender_id")]) s).
Proof.
  intros Hp Ht. unfold is_typing_event in Ht.
  assert (v <> JNull) as Hnull by (intros ->; discriminate Ht).
  unfold onmessage, try_catch.
  rewrite (bind_ret_eq _ _ s v s) by (rewrite Hp; reflexivity).
  rewrite (bind_ret_eq _ _ s _ s) by (apply js_and_nonnull, Hnull).
  rewrite truthy_js_and, Ht.
  rewrite (bind_ret_eq _ _ s _ s) by (apply get_field_nonnull, Hnull).
  reflexivity.
Qed.

Lemma onmessage_message id data v s :
  JSON_parse data = Some v ->
  is_typing_event v = false -> is_message_event v = true ->
  onmessage id data s
  = Ret tt (set_log
              (log s ++ [Elem_b (length (log s))
                           (if strict_eq_string (field v "sender_id") id
                            then Some (JStr "You") else field v "sender_id");
                         Plain (" " +:+ ToString (field v "msg"))]) s).
Proof.
  intros Hp Ht Hm. unfold is_typing_event, is_message_event in *.
  assert (v <> JNull) as Hnull by (intros ->; discriminate Hm).
  unfold onmessage, try_catch.
  rewrite (bind_ret_eq _ _ s v s) by (rewrite Hp; reflexivity).
  rewrite (bind_ret_eq _ _ s _ s) by (apply js_and_nonnull, Hnull).
  rewrite truthy_js_and, Ht.
  rewrite (bind_ret_eq _ _ s _ s) by (apply js_and_nonnull, Hnull).
  rewrite truthy_js_and, Hm.
  rewrite (bind_ret_eq _ _ s _ s) by (apply get_field_nonnull, Hnull).
  rewrite (bind_ret_eq _ _ s _ s) by (apply get_field_nonnull, Hnull).
  reflexivity.
Qed.

End Handler.

(** Proves [preserves R m] for a browser call or a state update [m]
    that leaves alone the field [R] looks at; [same] is the lemma that
    [R] relates two states agreeing on that field. *)
Ltac preserves_same same :=
  let s := fresh "s" in
  intros s; apply same;
  unfold ws_close, ws_send, new_WebSocket, setTimeout, clearTimeout, setLog,
    get_field, modify, ret, throw;
  simpl;
  repeat (match goal with
          | |- context [match ?x with _ => _ end] => destruct x
          end; simpl);
  reflexivity.

(** ** What the component writes to its socket *)

Section Sending.
Context {RT : Runtime}.

Lemma ws_open_inv s :
  ws_open s = true ->
  exists h w, ws_current s = Some h /\ sockets s !! h = Some w /\ readyState w = 1.
Proof.
  unfold ws_open. destruct (ws_current s) as [h|]; [|discriminate].
  destruct (sockets s !! h) as [w|] eqn:Hw; [|discriminate].
  intros H%Nat.eqb_eq. eauto.
Qed.

Lemma ws_send_open s h w p :
  sockets s !! h = Some w -> readyState w = 1 ->
  ws_send h p s = Ret tt (set_wire (wire s ++ [(h, p)]) s).
Proof. intros Hw Hr. unfold ws_send. rewrite Hw, Hr. reflexivity. Qed.

Lemma connectWS_returns id s :
  accepted id = true -> exists s', connectWS id s = Ret tt s'.
Proof.
  unfold connectWS, accepted.
  destruct (String.eqb id ""); [eexists; reflexivity|]. simpl.
  intros Hf%negb_true_iff. unfold bind, gets.
  destruct (ws_open s && String.eqb (lastSender s) id); [eexists; reflexivity|].
  destruct (ws_current s); unfold ws_close, modify, new_WebSocket, ret;
    rewrite Hf; eexists; reflexivity.
Qed.

Lemma typing_fire_guarded c s :
  ws_open s = false \/ c_senderId c = "" \/ c_receiverId c = "" ->
  typing_fire c s = Ret tt s.
Proof.
  intros H. unfold typing_fire, bind, gets.
  destruct H as [-> | [-> | ->]]; simpl.
  - reflexivity.
  - rewrite orb_true_r. reflexivity.
  - rewrite orb_true_r. reflexivity.
Qed.

Lemma typing_fire_sends c s h :
  ws_open s = true -> ws_current s = Some h ->
  c_senderId c <> "" -> c_receiverId c <> "" ->
  typing_fire c s
  = Ret tt (set_wire (wire s ++ [(h, JSON_stringify (typing_event c))]) s).
Proof.
  intros Ho Hc Hs Hr. destruct (ws_open_inv s Ho) as (h' & w & Hc' & Hw & Hrs).
  assert (h' = h) as -> by congruence.
  apply String.eqb_neq in Hs, Hr.
  unfold typing_fire, bind, gets. rewrite Ho, Hs, Hr. simpl. rewrite Hc.
  erewrite ws_send_open by eassumption. reflexivity.
Qed.

Lemma sendMsg_open c s h :
  ws_open s = true -> ws_current s = Some h ->
  sendMsg c s
  = Ret tt (set_msg "" (set_wire (wire s ++ [(h, JSON_stringify (message_event c))]) s)).
Proof.
  intros Ho Hc. destruct (ws_open_inv s Ho) as (h' & w & Hc' & Hw & Hrs).
  assert (h' = h) as -> by congruence.
  unfold sendMsg, bind, gets. rewrite Ho. simpl. rewrite Hc.
  erewrite ws_send_open by eassumption. reflexivity.
Qed.

Lemma sendMsg_not_open c s :
  ws_open s = false -> accepted (c_senderId c) = true ->
  sendMsg c s
  = Ret tt (final (setTimeout (CbSendMsg c) 300 (final (connectWS (c_senderId c) s)))).
Proof.
  intros Ho Ha. unfold sendMsg, bind at 1, gets. rewrite Ho. simpl.
  destruct (connectWS_returns (c_senderId c) s Ha) as [s' Hs'].
  unfold bind. rewrite Hs'. reflexivity.
Qed.


Lemma typing_fire_returns c s : threw (typing_fire c s) = false.
Proof.
  destruct (ws_open s) eqn:Ho.
  - destruct (ws_open_inv s Ho) as (h & w & Hc & Hw & Hrs).
    destruct (String.eqb (c_senderId c) "") eqn:Hs.
    { apply String.eqb_eq in Hs. rewrite typing_fire_guarded by auto. reflexivity. }
    destruct (String.eqb (c_receiverId c) "") eqn:Hr.
    { apply String.eqb_eq in Hr. rewrite typing_fire_guarded by auto. reflexivity. }
    apply String.eqb_neq in Hs, Hr.
    erewrite typing_fire_sends by eassumption. reflexivity.
  - rewrite typing_fire_guarded by auto. reflexivity.
Qed.

Lemma sendMsg_returns c s :
  accepted (c_senderId c) = true -> threw (sendMsg c s) = false.
Proof.
  intros Ha. destruct (ws_open s) eqn:Ho.
  - destruct (ws_open_inv s Ho) as (h & w & Hc & Hw & Hrs).
    erewrite sendMsg_open by eassumption. reflexivity.
  - rewrite sendMsg_not_open by assumption. reflexivity.
Qed.

(** C7.  When the debounce timer fires while the channel is not open
    (no socket yet, or one that is connecting, closing or closed), or
    with an empty sender or receiver identity in its closure, the
    callback returns at once: nothing is sent, nothing is thrown and the
    state is unchanged, so that the event loop only records that the
    timer ran.  In no state does the callback throw. *)
Theorem typing_timer_noop c s :
  ws_open s = false \/ c_senderId c = "" \/ c_receiverId c = "" ->
  typing_fire c s = Ret tt s
  /\ (forall i d,
        run_task (fire {| tid := i; due := d; cb := CbTyping c |}) s
        = set_history (history s ++ [(now s, CbTyping c)]) s)
  /\ (forall s0, threw (typing_fire c s0) = false).
Proof.
  intros H. split; [|split].
  - apply typing_fire_guarded, H.
  - intros i d. unfold run_task, fire, bind, modify. simpl.
    rewrite typing_fire_guarded; [reflexivity|]. exact H.
  - apply typing_fire_returns.
Qed.

#[local] Instance wire_grows_preorder : PreOrder wire_grows.
Proof.
  split.
  - intros s. exists []. split; [symmetry; apply app_nil_r|constructor].
  - intros s1 s2 s3 (n1 & H1 & F1) (n2 & H2 & F2). exists (n1 ++ n2). split.
    + rewrite H2, H1. symmetry. apply app_assoc.
    + apply Forall_app. split; assumption.
Qed.

Lemma wire_grows_same s s' : wire s' = wire s -> wire_grows s s'.
Proof.
  intros H. exists []. split; [rewrite H; symmetry; apply app_nil_r|constructor].
Qed.

Lemma ws_send_wire h p : client_frame p -> preserves wire_grows (ws_send h p).
Proof.
  intros Hp s. unfold ws_send.
  destruct (sockets s !! h) as [w|]; [|reflexivity].
  destruct (readyState w) as [|[|n]]; try reflexivity.
  simpl. exists [(h, p)]. split; [reflexivity|].
  constructor; [exact Hp|constructor].
Qed.

Lemma connectWS_wire id : preserves wire_grows (connectWS id).
Proof. unfold connectWS. preserves_split; preserves_same wire_grows_same. Qed.

Lemma sendMsg_wire c : preserves wire_grows (sendMsg c).
Proof.
  unfold sendMsg. preserves_split;
    first [ apply connectWS_wire
          | apply ws_send_wire; constructor
          | preserves_same wire_grows_same ].
Qed.

Lemma typing_fire_wire c : preserves wire_grows (typing_fire c).
Proof. unfold typing_fire. preserves_split. apply ws_send_wire; constructor. Qed.

Lemma onmessage_wire id data : preserves wire_grows (onmessage id data).
Proof.
  unfold onmessage, js_and. preserves_split; preserves_same wire_grows_same.
Qed.

Lemma run_task_wire m s : preserves wire_grows m -> wire_grows s (run_task m s).
Proof.
  intros H. apply preserves_run_task; [apply _| |exact H].
  intros v s0. apply wire_grows_same. reflexivity.
Qed.

Lemma fire_all_wire ready s : wire_grows s (fire_all ready s).
Proof.
  revert s. induction ready as [|t rest IH]; intros s; simpl.
  - reflexivity.
  - etransitivity; [|apply IH]. apply run_task_wire.
    unfold fire. preserves_split;
      first [ apply sendMsg_wire | apply typing_fire_wire
            | preserves_same wire_grows_same ].
Qed.

Lemma step_wire s e : wire_grows s (step s e).
Proof.
  destruct e; simpl.
  8: { unfold tick. etransitivity; [|apply fire_all_wire].
       apply wire_grows_same. reflexivity. }
  all: apply run_task_wire.
  all: unfold change_sender, effect_cleanup, input_msg, notifyTyping, click_send,
         net_open, net_message, net_close, onopen, onclose.
  all: preserves_split.
  all: first [ apply connectWS_wire | apply sendMsg_wire | apply onmessage_wire
             | preserves_same wire_grows_same ].
Qed.

Lemma run_wire s es : wire_grows s (run s es).
Proof.
  revert s. induction es as [|e rest IH]; intros s; simpl.
  - reflexivity.
  - etransitivity; [apply step_wire|apply IH].
Qed.

Lemma client_frame_one_of p :
  client_frame p ->
  exists ev, p = JSON_stringify ev
             /\ xorb (populates_msg ev) (populates_typing ev) = true.
Proof. intros [c|c]; eexists; (split; [reflexivity|reflexivity]). Qed.

(** C6.  Every event the component writes to its socket populates
    exactly one of [msg] and [typing: true].  [sendMsg] writes the object
    with the four fields [sender_id], [receiver_id], [msg] and
    [typing: false], filled from its closure: on a click, the identity,
    the receiver and the draft on the page.  The debouncer writes the
    object with [sender_id], [receiver_id] and [typing: true], and no
    [msg].  Along every sequence of events, every frame added to the
    wire is the serialisation of an object of one of the two shapes. *)
Theorem emitted_events_populate_one :
  (forall c,
      field (message_event c) "sender_id" = Some (JStr (c_senderId c))
      /\ field (message_event c) "receiver_id" = Some (JStr (c_receiverId c))
      /\ field (message_event c) "msg" = Some (JStr (c_msg c))
      /\ field (message_event c) "typing" = Some (JBool false)
      /\ populates_msg (message_event c) = true
      /\ populates_typing (message_event c) = false)
  /\ (forall c,
      field (typing_event c) "sender_id" = Some (JStr (c_senderId c))
      /\ field (typing_event c) "receiver_id" = Some (JStr (c_receiverId c))
      /\ field (typing_event c) "msg" = None
      /\ field (typing_event c) "typing" = Some (JBool true)
      /\ populates_msg (typing_event c) = false
      /\ populates_typing (typing_event c) = true)
  /\ (forall s h,
      ws_open s = true -> ws_current s = Some h ->
      wire (step s ClickSend)
      = wire s ++ [(h, JSON_stringify
                         (message_event {| c_senderId := senderId s;
                                           c_receiverId := receiverId s;
                                           c_msg := msg s |}))])
  /\ (forall c s h,
      ws_open s = true -> ws_current s = Some h ->
      c_senderId c <> "" -> c_receiverId c <> "" ->
      wire (final (typing_fire c s))
      = wire s ++ [(h, JSON_stringify (typing_event c))])
  /\ (forall s es,
      exists new,
        wire (run s es) = wire s ++ new
        /\ Forall (fun f => exists ev,
                       f.2 = JSON_stringify ev
                       /\ xorb (populates_msg ev) (populates_typing ev) = true) new).
Proof.
  split; [|split; [|split; [|split]]].
  - intros c. repeat split; reflexivity.
  - intros c. repeat split; reflexivity.
  - intros s h Ho Hc. simpl. unfold run_task, click_send.
    rewrite (bind_ret_eq _ _ s (render_closure s) s) by reflexivity.
    erewrite sendMsg_open by eassumption. reflexivity.
  - intros c s h Ho Hc Hs Hr.
    erewrite typing_fire_sends by eassumption. reflexivity.
  - intros s es. destruct (run_wire s es) as (new & Hw & Hf).
    exists new. split; [exact Hw|].
    eapply Forall_impl; [exact Hf|]. intros f. apply client_frame_one_of.
Qed.

End Sending.

(** ** The connection manager *)

Section Connection.
Context {RT : Runtime}.

Lemma closed_current_length cur socks :
  length (closed_current cur socks) = length socks.
Proof.
  unfold closed_current. destruct cur as [h|]; [|reflexivity].
  destruct (socks !! h) as [w|]; [|reflexivity].
  destruct (readyState w <? 2); [apply length_insert|reflexivity].
Qed.

Lemma closed_current_none_live cur socks :
  only_live cur socks ->
  forall h w, closed_current cur socks !! h = Some w -> 2 <= readyState w.
Proof.
  intros HI h w Hw. destruct (Nat.lt_ge_cases (readyState w) 2) as [Hlt|]; [|assumption].
  exfalso. unfold closed_current in Hw.
  destruct cur as [c|].
  - destruct (socks !! c) as [wc|] eqn:Hc.
    + destruct (readyState wc <? 2) eqn:Hlive.
      * destruct (decide (c = h)) as [->|Hne].
        -- rewrite list_lookup_insert_eq in Hw by (eapply lookup_lt_Some; eassumption).
           injection Hw as <-. simpl in Hlt. lia.
        -- rewrite list_lookup_insert_ne in Hw by assumption.
           specialize (HI h w Hw Hlt). congruence.
      * specialize (HI h w Hw Hlt). injection HI as ->.
        apply Nat.ltb_ge in Hlive. rewrite Hc in Hw. injection Hw as ->. lia.
    + specialize (HI h w Hw Hlt). injection HI as ->. congruence.
  - specialize (HI h w Hw Hlt). discriminate.
Qed.

Lemma ws_close_eq h s :
  ws_close h s = Ret tt (set_sockets (closed_current (Some h) (sockets s)) s).
Proof.
  unfold ws_close, modify, closed_current.
  destruct (sockets s !! h) as [w|]; [destruct (readyState w <? 2)|];
    try reflexivity; destruct s; reflexivity.
Qed.

Lemma close_current_eq s :
  match ws_current s with Some h => ws_close h | None => ret tt end s
  = Ret tt (set_sockets (closed_current (ws_current s) (sockets s)) s).
Proof.
  destruct (ws_current s) as [h|] eqn:Hc.
  - apply ws_close_eq.
  - unfold ret. simpl. destruct s; reflexivity.
Qed.

Lemma effect_cleanup_eq s :
  effect_cleanup s = Ret tt (set_sockets (closed_current (ws_current s) (sockets s)) s).
Proof.
  unfold effect_cleanup.
  rewrite (bind_ret_eq _ _ s (ws_current s) s) by reflexivity.
  apply close_current_eq.
Qed.

Lemma change_sender_eq v s :
  change_sender v s
  = if String.eqb (senderId s) v then Ret tt (set_senderId v s)
    else connectWS v (set_sockets (closed_current (ws_current s) (sockets s))
                        (set_senderId v s)).
Proof.
  unfold change_sender.
  rewrite (bind_ret_eq _ _ s (senderId s) s) by reflexivity.
  rewrite (bind_ret_eq _ _ s tt (set_senderId v s)) by reflexivity.
  destruct (String.eqb (senderId s) v); [reflexivity|].
  erewrite bind_ret_eq by apply effect_cleanup_eq. reflexivity.
Qed.

(** The ways through [connectWS]. *)
Lemma connectWS_empty s : connectWS "" s = Ret tt s.
Proof. reflexivity. Qed.

Lemma connectWS_same id s :
  ws_open s = true -> lastSender s = id -> connectWS id s = Ret tt s.
Proof.
  intros Ho Hl. unfold connectWS. destruct (String.eqb id ""); [reflexivity|].
  unfold bind, gets. rewrite Ho, Hl, String.eqb_refl. reflexivity.
Qed.

Lemma connectWS_reconnect id s :
  id <> "" -> ws_open s && String.eqb (lastSender s) id = false ->
  has_fragment (WS_BASE_URL +:+ id) = false ->
  connectWS id s = Ret tt (reconnected id s).
Proof.
  intros Hid Hc Hf. apply String.eqb_neq in Hid.
  unfold connectWS. rewrite Hid.
  rewrite (bind_ret_eq _ _ s (ws_open s) s) by reflexivity.
  rewrite (bind_ret_eq _ _ s (lastSender s) s) by reflexivity.
  rewrite Hc.
  rewrite (bind_ret_eq _ _ s (ws_current s) s) by reflexivity.
  erewrite bind_ret_eq by apply close_current_eq.
  unfold bind, new_WebSocket, modify, reconnected. rewrite Hf. simpl.
  rewrite closed_current_length. reflexivity.
Qed.

(** The constructor throws: line 33 is left with the old socket closed,
    and lines 34-56 do not run. *)
Lemma connectWS_rejected id s :
  id <> "" -> ws_open s && String.eqb (lastSender s) id = false ->
  has_fragment (WS_BASE_URL +:+ id) = true ->
  connectWS id s = Exn SyntaxError (disconnected s).
Proof.
  intros Hid Hc Hf. apply String.eqb_neq in Hid.
  unfold connectWS. rewrite Hid.
  rewrite (bind_ret_eq _ _ s (ws_open s) s) by reflexivity.
  rewrite (bind_ret_eq _ _ s (lastSender s) s) by reflexivity.
  rewrite Hc.
  rewrite (bind_ret_eq _ _ s (ws_current s) s) by reflexivity.
  erewrite bind_ret_eq by apply close_current_eq.
  unfold bind, new_WebSocket. rewrite Hf. reflexivity.
Qed.

Lemma connectWS_cases id s :
  connectWS id s = Ret tt s
  \/ (id <> "" /\ connectWS id s = Ret tt (reconnected id s))
  \/ (id <> "" /\ connectWS id s = Exn SyntaxError (disconnected s)).
Proof.
  destruct (String.eqb id "") eqn:Hid.
  - apply String.eqb_eq in Hid. subst. left. reflexivity.
  - apply String.eqb_neq in Hid.
    destruct (ws_open s && String.eqb (lastSender s) id) eqn:Hc.
    + apply andb_true_iff in Hc as [Ho Hl]. apply String.eqb_eq in Hl.
      left. apply connectWS_same; assumption.
    + destruct (has_fragment (WS_BASE_URL +:+ id)) eqn:Hf.
      * right. right. split; [exact Hid|]. apply connectWS_rejected; assumption.
      * right. left. split; [exact Hid|]. apply connectWS_reconnect; assumption.
Qed.

Lemma reconnected_not_open id s : ws_open (reconnected id s) = false.
Proof.
  unfold ws_open, reconnected. simpl.
  rewrite lookup_app_r by (rewrite closed_current_length; lia).
  rewrite closed_current_length, Nat.sub_diag. reflexivity.
Qed.

(** [connectWS] never makes the channel open: opening is the network's. *)
(** After [close()] on the socket [ws.current] refers to, the channel is
    not open. *)
Lemma closed_current_not_open s s0 :
  ws_current s0 = ws_current s ->
  sockets s0 = closed_current (ws_current s) (sockets s) ->
  ws_open s0 = false.
Proof.
  intros Hc Hs. unfold ws_open. rewrite Hc, Hs. unfold closed_current.
  destruct (ws_current s) as [h|]; [|reflexivity].
  destruct (sockets s !! h) as [w|] eqn:Hw.
  - destruct (readyState w <? 2) eqn:Hlt.
    + rewrite list_lookup_insert_eq by (eapply lookup_lt_Some; eassumption).
      reflexivity.
    + rewrite Hw. apply Nat.ltb_ge in Hlt. apply Nat.eqb_neq. lia.
  - rewrite Hw. reflexivity.
Qed.

Lemma connectWS_not_open id s :
  ws_open s = false -> ws_open (final (connectWS id s)) = false.
Proof.
  intros Ho. destruct (connectWS_cases id s) as [-> | [[_ ->] | [_ ->]]]; simpl.
  - exact Ho.
  - apply reconnected_not_open.
  - apply (closed_current_not_open s); reflexivity.
Qed.

(** ** At most one live socket *)

#[local] Instance keeps_one_live_preorder : PreOrder keeps_one_live.
Proof.
  split.
  - intros s H. exact H.
  - intros s1 s2 s3 H12 H23 H. apply H23, H12, H.
Qed.

Lemma keeps_one_live_same s s' :
  sockets s' = sockets s -> ws_current s' = ws_current s -> keeps_one_live s s'.
Proof. intros Hs Hc H. unfold one_live in *. rewrite Hs, Hc. exact H. Qed.

Lemma reconnected_one_live id s : keeps_one_live s (reconnected id s).
Proof.
  intros HI h w Hw Hlt. unfold reconnected in *. simpl in *.
  apply lookup_app_Some in Hw as [Hw | [Hge Hw]].
  - pose proof (closed_current_none_live _ _ HI h w Hw). lia.
  - rewrite closed_current_length in *.
    apply lookup_lt_Some in Hw as Hlen. simpl in Hlen.
    f_equal. lia.
Qed.

Lemma set_readyState_one_live h w r s :
  sockets s !! h = Some w -> (readyState w < 2 \/ 2 <= r) ->
  keeps_one_live s (set_sockets (<[h := with_readyState r w]> (sockets s)) s).
Proof.
  intros Hw Hr HI h' w' Hw' Hlt. unfold one_live in *. simpl in *.
  destruct (decide (h = h')) as [->|Hne].
  - rewrite list_lookup_insert_eq in Hw' by (eapply lookup_lt_Some; eassumption).
    injection Hw' as <-. simpl in Hlt.
    destruct Hr as [Hr|Hr]; [|lia]. eapply HI; eassumption.
  - rewrite list_lookup_insert_ne in Hw' by assumption. eapply HI; eassumption.
Qed.

Lemma ws_close_one_live h : preserves keeps_one_live (ws_close h).
Proof.
  intros s. unfold ws_close, modify. simpl.
  destruct (sockets s !! h) as [w|] eqn:Hw; [|reflexivity].
  destruct (readyState w <? 2) eqn:Hlt; [|reflexivity].
  apply set_readyState_one_live; [assumption|]. right. lia.
Qed.

Lemma disconnected_one_live s : keeps_one_live s (disconnected s).
Proof.
  pose proof (close_current_eq s) as H.
  assert (preserves keeps_one_live
            (match ws_current s with Some h => ws_close h | None => ret tt end)) as Hp.
  { destruct (ws_current s); [apply ws_close_one_live|]. intros s0. reflexivity. }
  specialize (Hp s). rewrite H in Hp. exact Hp.
Qed.

Lemma connectWS_one_live id : preserves keeps_one_live (connectWS id).
Proof.
  intros s. destruct (connectWS_cases id s) as [-> | [[_ ->] | [_ ->]]]; simpl.
  - reflexivity.
  - apply reconnected_one_live.
  - apply disconnected_one_live.
Qed.

Lemma sendMsg_one_live c : preserves keeps_one_live (sendMsg c).
Proof.
  unfold sendMsg. preserves_split;
    first [ apply connectWS_one_live | preserves_same keeps_one_live_same ].
Qed.

Lemma typing_fire_one_live c : preserves keeps_one_live (typing_fire c).
Proof. unfold typing_fire. preserves_split; preserves_same keeps_one_live_same. Qed.

Lemma onmessage_one_live id data : preserves keeps_one_live (onmessage id data).
Proof.
  unfold onmessage, js_and. preserves_split; preserves_same keeps_one_live_same.
Qed.

Lemma run_task_one_live m s :
  preserves keeps_one_live m -> keeps_one_live s (run_task m s).
Proof.
  intros H. apply preserves_run_task; [apply _| |exact H].
  intros v s0. apply keeps_one_live_same; reflexivity.
Qed.

Lemma net_open_one_live h : preserves keeps_one_live (net_open h).
Proof.
  intros s. unfold net_open.
  rewrite (bind_ret_eq _ _ s (sockets s) s) by reflexivity.
  destruct (sockets s !! h) as [w|] eqn:Hw; [|reflexivity].
  destruct (readyState w =? 0) eqn:Hr; [|reflexivity].
  apply Nat.eqb_eq in Hr. simpl.
  etransitivity; [apply (set_readyState_one_live h w 1 s Hw); left; lia|].
  apply keeps_one_live_same; reflexivity.
Qed.

Lemma net_close_one_live h : preserves keeps_one_live (net_close h).
Proof.
  intros s. unfold net_close.
  rewrite (bind_ret_eq _ _ s (sockets s) s) by reflexivity.
  destruct (sockets s !! h) as [w|] eqn:Hw; [|reflexivity].
  destruct (readyState w <? 3) eqn:Hr; [|reflexivity].
  simpl.
  etransitivity; [apply (set_readyState_one_live h w 3 s Hw); right; lia|].
  apply keeps_one_live_same; reflexivity.
Qed.

Lemma fire_all_one_live ready s : keeps_one_live s (fire_all ready s).
Proof.
  revert s. induction ready as [|t rest IH]; intros s; simpl.
  - reflexivity.
  - etransitivity; [|apply IH]. apply run_task_one_live.
    unfold fire. preserves_split;
      first [ apply sendMsg_one_live | apply typing_fire_one_live
            | preserves_same keeps_one_live_same ].
Qed.

Lemma step_one_live s e : keeps_one_live s (step s e).
Proof.
  destruct e; simpl.
  8: { unfold tick. etransitivity; [|apply fire_all_one_live].
       apply keeps_one_live_same; reflexivity. }
  all: apply run_task_one_live.
  5: apply net_open_one_live.
  6: apply net_close_one_live.
  all: unfold change_sender, effect_cleanup, input_msg, notifyTyping, click_send,
         net_message.
  all: preserves_split.
  all: first [ apply connectWS_one_live | apply sendMsg_one_live
             | apply onmessage_one_live | apply ws_close_one_live
             | preserves_same keeps_one_live_same ].
Qed.

Lemma reachable_one_live s : reachable s -> one_live s.
Proof.
  induction 1 as [|s e _ IH].
  - intros h w Hw. simpl in Hw. rewrite lookup_nil in Hw. discriminate.
  - apply (step_one_live s e), IH.
Qed.

Lemma reachable_run s es : reachable s -> reachable (run s es).
Proof.
  revert s. induction es as [|e rest IH]; intros s H; simpl; [exact H|].
  apply IH. constructor. exact H.
Qed.


Lemma reachable_connected : reachable connected.
Proof. apply reachable_run. constructor. Qed.

Lemma set_senderId_id s : set_senderId (senderId s) s = s.
Proof. destruct s; reflexivity. Qed.

(** C3.  Connecting again under the identity the open channel was
    opened for does nothing: [connectWS] returns with the state as it
    was (the socket is neither closed nor replaced, no socket is
    created), and so does setting the sender identity to the value it
    has, for which React does not run the effect again.  The page then
    has exactly one open socket, the one [ws.current] refers to. *)
Theorem connect_again_is_noop id s :
  reachable s ->
  ws_open s = true ->
  lastSender s = id ->
  connectWS id s = Ret tt s
  /\ (senderId s = id -> step s (ChangeSender id) = s)
  /\ exists h w,
       ws_current s = Some h /\ sockets s !! h = Some w /\ readyState w = 1
       /\ forall h' w', sockets s !! h' = Some w' -> readyState w' = 1 -> h' = h.
Proof.
  intros Hreach Ho Hl. split; [|split].
  - apply connectWS_same; assumption.
  - intros <-. simpl. unfold run_task, change_sender, bind, gets, modify. simpl.
    rewrite String.eqb_refl. apply set_senderId_id.
  - destruct (ws_open_inv s Ho) as (h & w & Hc & Hw & Hr).
    exists h, w. repeat split; try assumption.
    intros h' w' Hw' Hr'.
    pose proof (reachable_one_live s Hreach h' w' Hw') as H.
    rewrite Hc in H. assert (Some h = Some h') as Heq by (apply H; lia).
    congruence.
Qed.

End Connection.

(** ** The address of a channel *)

Section Address.
Context {RT : Runtime}.








End Address.

(** ** Timers *)

Section Timers.
Context {RT : Runtime}.

Lemma set_now_id s : set_now (now s) s = s.
Proof. destruct s; reflexivity. Qed.

Lemma set_now_set_now a b s : set_now a (set_now b s) = set_now a s.
Proof. reflexivity. Qed.

Lemma ticks_add a b s : ticks (a + b) s = ticks b (ticks a s).
Proof. revert s. induction a as [|a IH]; intros s; simpl; [reflexivity|apply IH]. Qed.

Lemma filter_none_due (n : nat) (l : list timer) :
  Forall (fun t => n < due t) l ->
  filter (fun t => due t <= n) l = [] /\ filter (fun t => ~ due t <= n) l = l.
Proof.
  induction 1 as [|t l Ht _ [IH1 IH2]]; [split; reflexivity|].
  split.
  - rewrite filter_cons_False by lia. exact IH1.
  - rewrite filter_cons_True by lia. rewrite IH2. reflexivity.
Qed.

(** A millisecond in which no timer is due only moves the clock. *)
Lemma tick_idle s :
  Forall (fun t => S (now s) < due t) (timers s) ->
  tick s = set_now (S (now s)) s.
Proof.
  intros H. unfold tick. simpl.
  destruct (filter_none_due (S (now s)) (timers s) H) as [-> ->].
  simpl. destruct s; reflexivity.
Qed.

Lemma ticks_idle d s :
  Forall (fun t => now s + d < due t) (timers s) ->
  ticks d s = set_now (now s + d) s.
Proof.
  revert s. induction d as [|d IH]; intros s H; simpl.
  - rewrite Nat.add_0_r. symmetry. apply set_now_id.
  - rewrite tick_idle by (eapply Forall_impl; [exact H|]; simpl; intros; lia).
    rewrite IH by (simpl; eapply Forall_impl; [exact H|]; simpl; intros; lia).
    rewrite set_now_set_now. f_equal. simpl. lia.
Qed.

(** The millisecond in which the only pending timer is due. *)
Lemma tick_fires_single t s :
  timers s = [t] -> due t = S (now s) ->
  tick s = run_task (fire t) (set_timers [] (set_now (S (now s)) s)).
Proof.
  intros Ht Hd. unfold tick. simpl. rewrite Ht.
  rewrite filter_cons_True by lia. rewrite filter_cons_False by lia.
  reflexivity.
Qed.

(** Waiting for the only pending timer, due in [d + 1] milliseconds. *)
Lemma ticks_until_single t d s :
  timers s = [t] -> due t = S (now s + d) ->
  ticks (S d) s = run_task (fire t) (set_timers [] (set_now (due t) s)).
Proof.
  intros Ht Hd. replace (S d) with (d + 1) by lia. rewrite ticks_add.
  rewrite (ticks_idle d s) by (rewrite Ht; repeat constructor; lia).
  simpl. rewrite (tick_fires_single t) by (simpl; assumption || lia).
  simpl. rewrite Hd. destruct s; reflexivity.
Qed.

(** What [connectWS] leaves alone. *)
Lemma connectWS_frame id s :
  let s' := final (connectWS id s) in
  timers s' = timers s /\ next_timer s' = next_timer s /\ now s' = now s
  /\ history s' = history s /\ wire s' = wire s /\ uncaught s' = uncaught s
  /\ msg s' = msg s /\ log s' = log s.
Proof.
  destruct (connectWS_cases id s) as [H | [[_ H] | [_ H]]];
    rewrite H; simpl; repeat split.
Qed.

(** A run of [sendMsg] that finds the channel not open: it tries to
    connect, queues itself again, and sends nothing. *)
Lemma sendMsg_requeues c s :
  ws_open s = false -> accepted (c_senderId c) = true ->
  exists s',
    sendMsg c s = Ret tt s'
    /\ timers s' = timers s ++ [{| tid := next_timer s; due := now s + 300; cb := CbSendMsg c |}]
    /\ ws_open s' = false /\ now s' = now s /\ history s' = history s
    /\ wire s' = wire s /\ uncaught s' = uncaught s /\ msg s' = msg s
    /\ log s' = log s.
Proof.
  intros Ho Ha. rewrite sendMsg_not_open by assumption.
  eexists. split; [reflexivity|].
  destruct (connectWS_frame (c_senderId c) s) as (Ht & Hn & Hnow & Hh & Hw & Hu & Hm & Hl).
  pose proof (connectWS_not_open (c_senderId c) s Ho) as Ho'.
  simpl. rewrite Ht, Hn, Hnow. repeat split; assumption.
Qed.

(** A retry that finds the channel open sends the message of its
    closure and queues nothing. *)
Lemma retry_sends c i d s h :
  ws_open s = true -> ws_current s = Some h ->
  run_task (fire {| tid := i; due := d; cb := CbSendMsg c |}) s
  = set_msg ""
      (set_wire (wire s ++ [(h, JSON_stringify (message_event c))])
         (set_history (history s ++ [(now s, CbSendMsg c)]) s)).
Proof.
  intros Ho Hc. unfold run_task, fire. simpl.
  erewrite bind_ret_eq by reflexivity.
  erewrite sendMsg_open by (simpl; eassumption). reflexivity.
Qed.

End Timers.

(** ** The typing debouncer *)

Section Debounce.
Context {RT : Runtime}.

Lemma set_wire_nil s : set_wire (wire s ++ []) s = s.
Proof. rewrite app_nil_r. destruct s; reflexivity. Qed.

Lemma typing_fire_eq c s :
  typing_fire c s = Ret tt (set_wire (wire s ++ typing_frames c s) s).
Proof.
  unfold typing_frames.
  destruct (ws_open s) eqn:Ho.
  - destruct (ws_open_inv s Ho) as (h & w & Hc & Hw & Hr). rewrite Hc.
    destruct (String.eqb (c_senderId c) "") eqn:Hs; simpl.
    { apply String.eqb_eq in Hs. rewrite typing_fire_guarded by auto.
      rewrite set_wire_nil. reflexivity. }
    destruct (String.eqb (c_receiverId c) "") eqn:Hrc; simpl.
    { apply String.eqb_eq in Hrc. rewrite typing_fire_guarded by auto.
      rewrite set_wire_nil. reflexivity. }
    apply String.eqb_neq in Hs, Hrc. apply typing_fire_sends; assumption.
  - rewrite typing_fire_guarded by auto.
    destruct (ws_current s); simpl; rewrite set_wire_nil; reflexivity.
Qed.

Lemma typing_timer_runs i d c s :
  run_task (fire {| tid := i; due := d; cb := CbTyping c |}) s
  = set_wire (wire s ++ typing_frames c s)
      (set_history (history s ++ [(now s, CbTyping c)]) s).
Proof.
  unfold run_task, fire. simpl.
  erewrite bind_ret_eq by reflexivity.
  rewrite typing_fire_eq. reflexivity.
Qed.



Lemma same_page_refl s : same_page s s.
Proof. repeat split. Qed.








(** *** The debouncer owns at most one timer *)

#[local] Instance keeps_designated_preorder : PreOrder keeps_designated.
Proof.
  split.
  - intros s H. exact H.
  - intros s1 s2 s3 H12 H23 H. apply H23, H12, H.
Qed.

Lemma keeps_designated_same s s' :
  timers s' = timers s -> typingTimeout s' = typingTimeout s ->
  keeps_designated s s'.
Proof. intros Ht Hi H. unfold typing_designated in *. rewrite Ht, Hi. exact H. Qed.

Lemma keeps_designated_fewer s s' :
  (forall t, t ∈ timers s' -> t ∈ timers s) ->
  typingTimeout s' = typingTimeout s ->
  keeps_designated s s'.
Proof.
  intros Ht Hi H t c Hin Hcb. rewrite Hi. eapply H; [apply Ht, Hin|exact Hcb].
Qed.

Lemma setTimeout_retry_designated c d :
  preserves keeps_designated (setTimeout (CbSendMsg c) d).
Proof.
  intros s H t c' Hin Hcb. simpl in *.
  apply elem_of_app in Hin as [Hin|Hin].
  - eapply H; eassumption.
  - apply list_elem_of_singleton in Hin. subst t. discriminate Hcb.
Qed.




Lemma notifyTyping_designated c : preserves keeps_designated (notifyTyping c).
Proof.
  intros s H t c' Hin Hcb.
  unfold notifyTyping, bind, gets, clearTimeout, modify, setTimeout in *.
  simpl in *.
  assert (forall t0, t0 ∈ timers s -> cb t0 = CbTyping c' ->
                     typingTimeout s = Some (tid t0)) as H' by (intros; eapply H; eauto).
  destruct (typingTimeout s) as [old|] eqn:Hold; simpl in *.
  - apply elem_of_app in Hin as [Hin|Hin].
    + apply list_elem_of_filter in Hin as [Hne Hin].
      specialize (H' t Hin Hcb). congruence.
    + apply list_elem_of_singleton in Hin. subst t. reflexivity.
  - apply elem_of_app in Hin as [Hin|Hin].
    + specialize (H' t Hin Hcb). discriminate.
    + apply list_elem_of_singleton in Hin. subst t. reflexivity.
Qed.







End Debounce.

(** ** The message router *)

Section RouterFacts.
Import Router.

Lemma routable_event_is_forwarded r from e ch :
  registry r !! receiver_id e = Some ch ->
  written (on_event from e r) = written r ++ [(ch, e)]
  /\ registry (on_event from e r) = registry r.
Proof. intros H. unfold on_event. rewrite H. split; reflexivity. Qed.

Lemma connect_registers id ch r :
  registry (on_connect id ch r) !! id = Some ch.
Proof. unfold on_connect. simpl. apply lookup_insert_eq. Qed.

Lemma stale_close_keeps_entry id old new r :
  old <> new ->
  registry (on_close id old (on_connect id new r)) !! id = Some new.
Proof.
  intros Hne. unfold on_close. rewrite connect_registers.
  destruct (decide (new = old)) as [->|_]; [congruence|].
  apply connect_registers.
Qed.

(** C8.  An event whose [receiver_id] has no channel in the registry is
    discarded: the router is left as it was.  No frame is written to any
    channel, the sender's included, so that nothing is delivered and no
    error is reported; no channel is closed; and nothing is kept for
    later: when the receiver connects afterwards, nothing is written. *)
Theorem unroutable_event_is_discarded r from e :
  registry r !! receiver_id e = None ->
  on_event from e r = r
  /\ (forall ch, written_to ch (on_event from e r) = written_to ch r)
  /\ closed (on_event from e r) = closed r
  /\ (forall ch, written (on_connect (receiver_id e) ch (on_event from e r)) = written r).
Proof.
  intros H. unfold on_event. rewrite H. repeat split.
Qed.

End RouterFacts.

(** * Further properties of the component *)

(** ** The base URL *)

Section BaseURL.
Context {RT : Runtime}.

(** X1.  The base URL is a WebSocket URL ending in the chat path: the
    deployed secure URL on the deployed host, and otherwise the host of
    the page with the scheme that matches the page, so that a page
    served over https never opens an insecure socket, and a page served
    otherwise from another host never a secure one. *)
Theorem base_url_scheme :
  (hostname location = "student-managment-api-ilmg.onrender.com" ->
     WS_BASE_URL = "wss://student-managment-api-ilmg.onrender.com/ws-demo/ws/chat/")
  /\ (hostname location <> "student-managment-api-ilmg.onrender.com" ->
      protocol location = "https:" ->
      WS_BASE_URL = "wss://" +:+ host location +:+ "/ws-demo/ws/chat/")
  /\ (hostname location <> "student-managment-api-ilmg.onrender.com" ->
      protocol location <> "https:" ->
      WS_BASE_URL = "ws://" +:+ host location +:+ "/ws-demo/ws/chat/")
  /\ (protocol location = "https:" -> exists rest, WS_BASE_URL = "wss://" +:+ rest)
  /\ (exists authority,
        WS_BASE_URL = "ws://" +:+ authority +:+ "/ws-demo/ws/chat/"
        \/ WS_BASE_URL = "wss://" +:+ authority +:+ "/ws-demo/ws/chat/").
Proof.
  unfold WS_BASE_URL, LOCAL_WS_BASE_URL, DEPLOYED_WS_BASE_URL.
  split; [|split; [|split; [|split]]].
  - intros ->. reflexivity.
  - intros Hh Hp. apply String.eqb_neq in Hh. rewrite Hh, Hp. reflexivity.
  - intros Hh Hp. apply String.eqb_neq in Hh, Hp. rewrite Hh, Hp. reflexivity.
  - intros Hp. rewrite Hp.
    destruct (String.eqb (hostname location) _); eexists; reflexivity.
  - destruct (String.eqb (hostname location) _).
    + exists "student-managment-api-ilmg.onrender.com". right. reflexivity.
    + exists (host location).
      destruct (String.eqb (protocol location) "https:"); [right|left]; reflexivity.
Qed.

End BaseURL.

(** ** What the message handler shows *)

Section Display.
Context {RT : Runtime}.

Lemma strict_eq_string_spec (v : value) id :
  strict_eq_string v id = true <-> v = Some (JStr id).
Proof.
  unfold strict_eq_string. split.
  - destruct v as [[| | |s'| |]|]; try discriminate.
    intros H%String.eqb_eq. subst. reflexivity.
  - intros ->. apply String.eqb_refl.
Qed.

(** X2.  A payload that parses to a value whose [typing] and
    [sender_id] are both truthy, the [sender_id] being a value React can
    render (a string, a number, [true] or an array of such; not an
    object), adds exactly one entry to the log: the typing notice of
    that sender, keyed by the length of the log before.  The test comes
    first: a [msg] the payload may also carry is not shown. *)
Theorem typing_notice_is_shown id data v s :
  JSON_parse data = Some v ->
  truthy (field v "typing") = true ->
  truthy (field v "sender_id") = true ->
  renderable (field v "sender_id") = true ->
  onmessage id data s
  = Ret tt (set_log (log s ++ [Elem_i (length (log s)) (field v "sender_id")]) s).
Proof.
  intros Hp Ht Hs _. apply onmessage_typing with (v := v); [exact Hp|].
  unfold is_typing_event. rewrite Ht, Hs. reflexivity.
Qed.

(** X3.  A payload that parses to a value with a truthy [msg] and a
    truthy [sender_id], and no truthy [typing], the [sender_id] being a
    value React can render and the [msg] one that converts to a string
    (no object with a [toString] key of its own in it), adds two
    entries: a label and the text, the [msg] converted to a string after
    a space.  The label is "You" exactly when [sender_id] is a string
    equal to the identity the socket was created for (strict equality: a
    number that prints the same is not), and the [sender_id] itself
    otherwise. *)
Theorem message_is_shown id data v s :
  JSON_parse data = Some v ->
  truthy (field v "typing") = false ->
  truthy (field v "msg") = true ->
  truthy (field v "sender_id") = true ->
  renderable (field v "sender_id") = true ->
  convertible (field v "msg") = true ->
  (field v "sender_id" = Some (JStr id) ->
     onmessage id data s
     = Ret tt (set_log (log s ++ [Elem_b (length (log s)) (Some (JStr "You"));
                                  Plain (" " +:+ ToString (field v "msg"))]) s))
  /\ (field v "sender_id" <> Some (JStr id) ->
     onmessage id data s
     = Ret tt (set_log (log s ++ [Elem_b (length (log s)) (field v "sender_id");
                                  Plain (" " +:+ ToString (field v "msg"))]) s)).
Proof.
  intros Hp Ht Hm Hs _ _.
  assert (is_typing_event v = false) as Hte
    by (unfold is_typing_event; rewrite Ht; reflexivity).
  assert (is_message_event v = true) as Hme
    by (unfold is_message_event; rewrite Hm, Hs; reflexivity).
  pose proof (onmessage_message id data v s Hp Hte Hme) as H.
  split; intros Hid.
  - rewrite H.
    assert (strict_eq_string (field v "sender_id") id = true) as ->
      by (apply strict_eq_string_spec, Hid).
    reflexivity.
  - rewrite H.
    destruct (strict_eq_string (field v "sender_id") id) eqn:E; [|reflexivity].
    apply strict_eq_string_spec in E. contradiction.
Qed.

(** X4.  What [sendMsg] writes, read back by the message handler of a
    socket created for [id] (on a runtime whose [JSON.parse] reads back
    what its [JSON.stringify] wrote for this event).  With a non-empty
    sender and a non-empty draft the message is shown, under the label
    "You" when the sender is [id]; with an empty draft or an empty
    sender the handler shows nothing at all. *)
Theorem sent_message_read_back id c s :
  JSON_parse (JSON_stringify (message_event c)) = Some (message_event c) ->
  (c_senderId c <> "" -> c_msg c <> "" ->
     onmessage id (JSON_stringify (message_event c)) s
     = Ret tt (set_log
                 (log s ++ [Elem_b (length (log s))
                              (Some (JStr (if String.eqb (c_senderId c) id
                                           then "You" else c_senderId c)));
                            Plain (" " +:+ c_msg c)]) s))
  /\ (c_senderId c = "" \/ c_msg c = "" ->
     onmessage id (JSON_stringify (message_event c)) s = Ret tt s).
Proof.
  intros Hp. split.
  - intros Hs Hm. apply String.eqb_neq in Hs, Hm.
    rewrite (onmessage_message id _ (message_event c) s Hp).
    + simpl. destruct (String.eqb (c_senderId c) id); reflexivity.
    + reflexivity.
    + unfold is_message_event. simpl. rewrite Hs, Hm. reflexivity.
  - intros H. apply (onmessage_ignored id _ (message_event c) s Hp).
    + discriminate.
    + reflexivity.
    + unfold is_message_event. simpl.
      destruct H as [-> | ->]; simpl; [apply andb_false_r|reflexivity].
Qed.

(** X5.  What the debouncer writes, read back by the message handler
    (same condition on the runtime): with a non-empty sender, which the
    guard of the debouncer ensures, the typing notice of the sender is
    shown, and nothing else. *)
Theorem sent_typing_read_back id c s :
  JSON_parse (JSON_stringify (typing_event c)) = Some (typing_event c) ->
  c_senderId c <> "" ->
  onmessage id (JSON_stringify (typing_event c)) s
  = Ret tt (set_log (log s ++ [Elem_i (length (log s)) (Some (JStr (c_senderId c)))]) s).
Proof.
  intros Hp Hs. apply String.eqb_neq in Hs.
  rewrite (onmessage_typing id _ (typing_event c) s Hp); [reflexivity|].
  unfold is_typing_event. simpl. rewrite Hs. reflexivity.
Qed.

End Display.

(** ** Tasks that return *)

Section Returning.
Context {RT : Runtime}.

Lemma returns_bind {A B} (m : M A) (k : A -> M B) :
  returns m -> (forall a, returns (k a)) -> returns (bind m k).
Proof.
  intros Hm Hk s. unfold bind. specialize (Hm s).
  destruct (m s) as [a s'|e s']; [apply Hk|discriminate Hm].
Qed.

Lemma returns_run_task (m : M unit) s : returns m -> run_task m s = final (m s).
Proof.
  intros Hm. unfold run_task. specialize (Hm s).
  destruct (m s) as [a s'|e s']; [reflexivity|discriminate Hm].
Qed.

End Returning.

(** Takes a goal [returns m] apart along the structure of [m]. *)
Ltac returns_split :=
  repeat match goal with
    | |- returns (ret _) => intros ?; reflexivity
    | |- returns (gets _) => intros ?; reflexivity
    | |- returns (modify _) => intros ?; reflexivity
    | |- returns (bind _ _) => apply returns_bind; [|intros ?]
    | |- returns (match ?x with _ => _ end) => destruct x
    end.

Section Safety.
Context {RT : Runtime}.

Lemma ws_close_returns h : returns (ws_close h).
Proof. intros s. reflexivity. Qed.

Lemma setTimeout_returns f d : returns (setTimeout f d).
Proof. intros s. reflexivity. Qed.

Lemma clearTimeout_returns id : returns (clearTimeout id).
Proof. intros s. reflexivity. Qed.

Lemma setLog_returns f : returns (setLog f).
Proof. intros s. reflexivity. Qed.

Lemma connectWS_never_throws id : accepted id = true -> returns (connectWS id).
Proof. intros Ha s. destruct (connectWS_returns id s Ha) as [s' ->]. reflexivity. Qed.

Lemma onmessage_never_throws id data : returns (onmessage id data).
Proof. intros s. destruct (onmessage_returns id data s) as [s' ->]. reflexivity. Qed.

Lemma notifyTyping_returns c : returns (notifyTyping c).
Proof.
  unfold notifyTyping. returns_split;
    first [apply clearTimeout_returns | apply setTimeout_returns].
Qed.

(** The tasks of the page return normally, but for the constructor: the
    effect and a click on Send return when it accepts the identity. *)
Lemma dispatch_returns e :
  match e with
  | ChangeSender v => accepted v = true -> returns (change_sender v)
  | ChangeReceiver v => returns (modify (set_receiverId v))
  | Input v => returns (input_msg v)
  | ClickSend => forall s, accepted (senderId s) = true -> threw (click_send s) = false
  | NetOpen h => returns (net_open h)
  | NetMessage h data => returns (net_message h data)
  | NetClose h => returns (net_close h)
  | Tick => True
  end.
Proof.
  destruct e; try exact I.
  4: { intros s Ha. unfold click_send.
       rewrite (bind_ret_eq _ _ s (render_closure s) s) by reflexivity.
       apply sendMsg_returns. exact Ha. }
  1: intros Ha.
  all: unfold change_sender, effect_cleanup, input_msg,
         net_open, net_message, net_close, onopen, onclose;
    returns_split;
    first [ apply connectWS_never_throws; exact Ha | apply onmessage_never_throws
          | apply notifyTyping_returns | apply ws_close_returns
          | apply setLog_returns ].
Qed.

(** What an escaping exception changes is the record of them. *)
Lemma run_task_eq (m : M unit) s :
  exists u, run_task m s = set_uncaught u (final (m s)).
Proof.
  unfold run_task. destruct (m s) as [a s'|e s']; simpl.
  - exists (uncaught s'). destruct s'; reflexivity.
  - eexists. reflexivity.
Qed.

#[local] Instance uncaught_kept_preorder : PreOrder uncaught_kept.
Proof.
  split.
  - intros s. reflexivity.
  - intros s1 s2 s3 H12 H23. unfold uncaught_kept in *. congruence.
Qed.

Lemma uncaught_kept_same s s' : uncaught s' = uncaught s -> uncaught_kept s s'.
Proof. intros H. exact H. Qed.

Lemma connectWS_uncaught id : preserves uncaught_kept (connectWS id).
Proof. unfold connectWS. preserves_split; preserves_same uncaught_kept_same. Qed.

Lemma sendMsg_uncaught c : preserves uncaught_kept (sendMsg c).
Proof.
  unfold sendMsg. preserves_split;
    first [apply connectWS_uncaught | preserves_same uncaught_kept_same].
Qed.

End Safety.

(** ** Sockets and the wire *)

Section Wire.
Context {RT : Runtime}.

#[local] Instance wire_kept_preorder : PreOrder wire_kept.
Proof.
  split.
  - intros s. reflexivity.
  - intros s1 s2 s3 H12 H23. unfold wire_kept in *. congruence.
Qed.

Lemma wire_kept_same s s' : wire s' = wire s -> wire_kept s s'.
Proof. intros H. exact H. Qed.

#[local] Instance conn_kept_preorder : PreOrder conn_kept.
Proof.
  split.
  - intros s. split; reflexivity.
  - intros s1 s2 s3 [A1 A2] [B1 B2]. split; congruence.
Qed.

Lemma conn_kept_same s s' :
  sockets s' = sockets s -> ws_current s' = ws_current s -> conn_kept s s'.
Proof. intros H1 H2. split; assumption. Qed.

Lemma conn_kept_ws_open s s' : conn_kept s s' -> ws_open s' = ws_open s.
Proof. intros [H1 H2]. unfold ws_open. rewrite H1, H2. reflexivity. Qed.

(** While the channel is not open, [sendMsg] writes nothing and leaves
    it not open, whether the constructor throws or not. *)
Lemma sendMsg_silent c s :
  ws_open s = false ->
  wire (final (sendMsg c s)) = wire s /\ ws_open (final (sendMsg c s)) = false.
Proof.
  intros Ho.
  destruct (connectWS_frame (c_senderId c) s) as (_ & _ & _ & _ & Hw & _).
  pose proof (connectWS_not_open (c_senderId c) s Ho) as Ho'.
  assert (sendMsg c s
          = bind (connectWS (c_senderId c))
              (fun _ => bind (setTimeout (CbSendMsg c) 300) (fun _ => ret tt)) s) as ->.
  { unfold sendMsg. rewrite (bind_ret_eq _ _ s (ws_open s) s) by reflexivity.
    rewrite Ho. reflexivity. }
  unfold bind.
  destruct (connectWS (c_senderId c) s) as [[] s'|e s'];
    (split; [exact Hw|exact Ho']).
Qed.

Lemma fire_silent t s :
  ws_open s = false ->
  wire (run_task (fire t) s) = wire s /\ ws_open (run_task (fire t) s) = false.
Proof.
  intros Ho. destruct (run_task_eq (fire t) s) as [u ->].
  unfold fire. erewrite bind_ret_eq by reflexivity.
  set (s0 := set_history (history s ++ [(now s, cb t)]) s).
  assert (ws_open s0 = false) as Ho0 by exact Ho.
  destruct (cb t) as [c|c].
  - destruct (sendMsg_silent c s0 Ho0) as [Hw Ho']. split; [exact Hw|exact Ho'].
  - rewrite typing_fire_guarded by auto. split; [reflexivity|exact Ho].
Qed.

Lemma fire_all_not_open ready s :
  ws_open s = false ->
  wire (fire_all ready s) = wire s /\ ws_open (fire_all ready s) = false.
Proof.
  revert s. induction ready as [|t rest IH]; intros s Ho; simpl.
  - split; [reflexivity|exact Ho].
  - destruct (fire_silent t s Ho) as [Hw1 Ho1].
    destruct (IH _ Ho1) as [Hw Ho']. split; [|exact Ho'].
    rewrite Hw, Hw1. reflexivity.
Qed.

Lemma onmessage_wire_kept id data : preserves wire_kept (onmessage id data).
Proof.
  unfold onmessage, js_and. preserves_split; preserves_same wire_kept_same.
Qed.

Lemma connectWS_wire_kept id : preserves wire_kept (connectWS id).
Proof. unfold connectWS. preserves_split; preserves_same wire_kept_same. Qed.

(** Only a click on Send and a timer can write to the socket. *)
Lemma step_wire_kept s e :
  e <> ClickSend -> e <> Tick -> wire (step s e) = wire s.
Proof.
  intros H1 H2.
  destruct e; try congruence; unfold step.
  all: match goal with |- wire (run_task ?m ?s0) = _ =>
         destruct (run_task_eq m s0) as [u ->];
         change (wire_kept s0 (final (m s0))); revert s0;
         change (preserves wire_kept m) end.
  all: unfold change_sender, effect_cleanup, input_msg, notifyTyping,
         net_open, net_message, net_close, onopen, onclose.
  all: preserves_split.
  all: first [ apply connectWS_wire_kept | apply onmessage_wire_kept
             | preserves_same wire_kept_same ].
Qed.

Lemma notifyTyping_conn_kept c : preserves conn_kept (notifyTyping c).
Proof. unfold notifyTyping. preserves_split; preserves_same conn_kept_same. Qed.


(** X7.  While the channel is not open the page writes nothing to any
    socket, whatever happens; and nothing the user does and no timer
    makes the channel open: only the network's open event does. *)
Theorem silent_until_open s e :
  ws_open s = false ->
  wire (step s e) = wire s
  /\ ((forall h, e <> NetOpen h) -> ws_open (step s e) = false).
Proof.
  intros Ho.
  destruct e as [v|v|v| |h|h data|h|].
  - split; [apply step_wire_kept; discriminate|]. intros _.
    unfold step. destruct (run_task_eq (change_sender v) s) as [u ->].
    change (ws_open (final (change_sender v s)) = false).
    rewrite change_sender_eq.
    destruct (String.eqb (senderId s) v); [exact Ho|].
    apply connectWS_not_open. apply (closed_current_not_open s); reflexivity.
  - split; [apply step_wire_kept; discriminate|]. intros _. exact Ho.
  - split; [apply step_wire_kept; discriminate|]. intros _.
    unfold step. rewrite (returns_run_task _ _ (dispatch_returns (Input v))).
    unfold input_msg.
    erewrite bind_ret_eq by reflexivity.
    unfold bind. pose proof (notifyTyping_conn_kept (render_closure s) s) as Hk.
    pose proof (notifyTyping_returns (render_closure s) s) as Hn.
    destruct (notifyTyping (render_closure s) s) as [[] s1|]; [|discriminate Hn].
    simpl in *. rewrite <- Ho. apply (conn_kept_ws_open s). exact Hk.
  - unfold step. destruct (run_task_eq click_send s) as [u ->].
    unfold click_send. erewrite bind_ret_eq by reflexivity.
    destruct (sendMsg_silent (render_closure s) s Ho) as [Hw1 Ho1].
    split; [exact Hw1|intros _; exact Ho1].
  - split; [apply step_wire_kept; discriminate|]. intros H.
    exfalso. exact (H h eq_refl).
  - split; [apply step_wire_kept; discriminate|]. intros _.
    destruct (net_message_only_log h data s) as [l ->]. exact Ho.
  - split; [apply step_wire_kept; discriminate|]. intros _.
    unfold step. rewrite (returns_run_task _ _ (dispatch_returns (NetClose h))).
    unfold net_close.
    rewrite (bind_ret_eq _ _ s (sockets s) s) by reflexivity.
    destruct (sockets s !! h) as [w|] eqn:Hw; [|exact Ho].
    destruct (readyState w <? 3); [|exact Ho].
    simpl. unfold ws_open in *. simpl.
    destruct (ws_current s) as [c|]; [|reflexivity].
    destruct (decide (h = c)) as [->|Hne].
    + rewrite list_lookup_insert_eq by (eapply lookup_lt_Some; eassumption).
      reflexivity.
    + rewrite list_lookup_insert_ne by assumption. exact Ho.
  - unfold step, tick.
    match goal with |- context [fire_all ?r ?s0] =>
      destruct (fire_all_not_open r s0 Ho) as [Hw Ho']
    end.
    split; [rewrite Hw; reflexivity|intros _; exact Ho'].
Qed.

(** X8.  In every state the page can reach, a socket that is CONNECTING
    or OPEN is the one [ws.current] refers to: every other socket the
    page created has had [close()] called on it. *)
Theorem at_most_one_live_socket s :
  reachable s ->
  forall h w, sockets s !! h = Some w -> readyState w < 2 -> ws_current s = Some h.
Proof. intros Hr. exact (reachable_one_live s Hr). Qed.

(** X9.  Emptying the sender identity closes the channel and opens
    none: [close()] is called on the current socket, no socket is
    created, [ws.current] and [lastSender.current] keep their values and
    the channel is not open afterwards. *)
Theorem clearing_identity_disconnects s :
  senderId s <> "" ->
  step s (ChangeSender "")
  = set_sockets (closed_current (ws_current s) (sockets s)) (set_senderId "" s)
  /\ ws_open (step s (ChangeSender "")) = false
  /\ length (sockets (step s (ChangeSender ""))) = length (sockets s).
Proof.
  intros Hs. apply String.eqb_neq in Hs.
  assert (step s (ChangeSender "")
          = set_sockets (closed_current (ws_current s) (sockets s)) (set_senderId "" s))
    as Heq.
  { unfold step.
    rewrite (returns_run_task _ _ (dispatch_returns (ChangeSender "") eq_refl)).
    rewrite change_sender_eq, Hs. reflexivity. }
  rewrite Heq. split; [reflexivity|]. split.
  - apply (closed_current_not_open s); reflexivity.
  - simpl. apply closed_current_length.
Qed.

(** X10.  A retry of [sendMsg] connects under the sender identity of
    the closure it was queued with, not under the one on the page: when
    it runs with the channel not open, and the constructor accepts the
    URL of the captured identity, it calls [close()] on the current
    socket, whoever it was created for, and replaces it by a socket
    addressed by the captured identity, which becomes [lastSender];
    the identity on the page is not consulted. *)
Theorem retry_connects_as_captured i d c s :
  ws_open s = false ->
  c_senderId c <> "" ->
  has_fragment (WS_BASE_URL +:+ c_senderId c) = false ->
  let s' := run_task (fire {| tid := i; due := d; cb := CbSendMsg c |}) s in
  sockets s'
  = closed_current (ws_current s) (sockets s)
    ++ [{| url := WS_BASE_URL +:+ c_senderId c; readyState := 0;
           ws_senderId := c_senderId c |}]
  /\ ws_current s' = Some (length (sockets s))
  /\ lastSender s' = c_senderId c
  /\ senderId s' = senderId s
  /\ wire s' = wire s.
Proof.
  intros Ho Hc Hf s'. subst s'.
  assert (accepted (c_senderId c) = true) as Ha
    by (unfold accepted; rewrite Hf; apply orb_true_r).
  unfold run_task, fire. simpl. erewrite bind_ret_eq by reflexivity.
  rewrite sendMsg_not_open; [|exact Ho|exact Ha].
  rewrite connectWS_reconnect; [|exact Hc| |exact Hf].
  - simpl. repeat split.
  - change (ws_open (set_history (history s ++ [(now s, CbSendMsg c)]) s)) with (ws_open s).
    rewrite Ho. reflexivity.
Qed.

End Wire.

(** ** Every socket has an address *)

Section Addressed.
Context {RT : Runtime}.

#[local] Instance keeps_addressed_preorder : PreOrder keeps_addressed.
Proof.
  split.
  - intros s H. exact H.
  - intros s1 s2 s3 H12 H23 H. apply H23, H12, H.
Qed.

Lemma keeps_addressed_same s s' :
  sockets s' = sockets s -> ws_current s' = ws_current s ->
  lastSender s' = lastSender s -> keeps_addressed s s'.
Proof. intros H1 H2 H3 H. unfold addressed in *. rewrite H1, H2, H3. exact H. Qed.

Lemma set_readyState_addressed h w r s :
  sockets s !! h = Some w ->
  keeps_addressed s (set_sockets (<[h := with_readyState r w]> (sockets s)) s).
Proof.
  intros Hw [H1 H2]. pose proof (lookup_lt_Some _ _ _ Hw) as Hlt.
  split; simpl.
  - intros h' w' Hw'. destruct (decide (h = h')) as [->|Hne].
    + rewrite list_lookup_insert_eq in Hw' by assumption.
      injection Hw' as <-. simpl. exact (H1 h' w Hw).
    + rewrite list_lookup_insert_ne in Hw' by assumption. exact (H1 h' w' Hw').
  - destruct (ws_current s) as [c|]; [|exact H2].
    destruct H2 as (w0 & Hw0 & Hid).
    destruct (decide (h = c)) as [->|Hne].
    + exists (with_readyState r w).
      rewrite list_lookup_insert_eq by assumption. split; [reflexivity|].
      simpl. congruence.
    + exists w0. rewrite list_lookup_insert_ne by assumption. split; assumption.
Qed.

Lemma ws_close_addressed h : preserves keeps_addressed (ws_close h).
Proof.
  intros s. unfold ws_close, modify. simpl.
  destruct (sockets s !! h) as [w|] eqn:Hw; [|reflexivity].
  destruct (readyState w <? 2); [|reflexivity].
  apply set_readyState_addressed, Hw.
Qed.

Lemma closed_current_addressed s :
  keeps_addressed s (set_sockets (closed_current (ws_current s) (sockets s)) s).
Proof.
  pose proof (close_current_eq s) as H.
  assert (preserves keeps_addressed
            (match ws_current s with Some h => ws_close h | None => ret tt end)) as Hp.
  { destruct (ws_current s); [apply ws_close_addressed|]. intros s0. reflexivity. }
  specialize (Hp s). rewrite H in Hp. exact Hp.
Qed.

Lemma reconnected_addressed id s :
  id <> "" -> keeps_addressed s (reconnected id s).
Proof.
  intros Hid Ha. destruct (closed_current_addressed s Ha) as [H1 _]. simpl in H1.
  unfold reconnected. split; simpl.
  - intros h w Hw. apply lookup_app_Some in Hw as [Hw | [_ Hw]].
    + exact (H1 h w Hw).
    + destruct (h - length (closed_current (ws_current s) (sockets s))) as [|n];
        simpl in Hw; [|rewrite lookup_nil in Hw; discriminate].
      injection Hw as <-. simpl. split; [reflexivity|exact Hid].
  - exists {| url := WS_BASE_URL +:+ id; readyState := 0; ws_senderId := id |}.
    split; [|reflexivity].
    rewrite lookup_app_r by (rewrite closed_current_length; lia).
    rewrite closed_current_length, Nat.sub_diag. reflexivity.
Qed.

Lemma connectWS_addressed id : preserves keeps_addressed (connectWS id).
Proof.
  intros s. destruct (connectWS_cases id s) as [-> | [[Hid ->] | [_ ->]]]; simpl.
  - reflexivity.
  - apply reconnected_addressed, Hid.
  - apply closed_current_addressed.
Qed.

Lemma sendMsg_addressed c : preserves keeps_addressed (sendMsg c).
Proof.
  unfold sendMsg. preserves_split;
    first [ apply connectWS_addressed | preserves_same keeps_addressed_same ].
Qed.

Lemma typing_fire_addressed c : preserves keeps_addressed (typing_fire c).
Proof. unfold typing_fire. preserves_split; preserves_same keeps_addressed_same. Qed.

Lemma onmessage_addressed id data : preserves keeps_addressed (onmessage id data).
Proof.
  unfold onmessage, js_and. preserves_split; preserves_same keeps_addressed_same.
Qed.

Lemma run_task_addressed m s :
  preserves keeps_addressed m -> keeps_addressed s (run_task m s).
Proof.
  intros H. apply preserves_run_task; [apply _| |exact H].
  intros v s0. apply keeps_addressed_same; reflexivity.
Qed.

Lemma net_open_addressed h : preserves keeps_addressed (net_open h).
Proof.
  intros s. unfold net_open.
  rewrite (bind_ret_eq _ _ s (sockets s) s) by reflexivity.
  destruct (sockets s !! h) as [w|] eqn:Hw; [|reflexivity].
  destruct (readyState w =? 0); [|reflexivity]. simpl.
  etransitivity; [apply (set_readyState_addressed h w 1 s Hw)|].
  apply keeps_addressed_same; reflexivity.
Qed.

Lemma net_close_addressed h : preserves keeps_addressed (net_close h).
Proof.
  intros s. unfold net_close.
  rewrite (bind_ret_eq _ _ s (sockets s) s) by reflexivity.
  destruct (sockets s !! h) as [w|] eqn:Hw; [|reflexivity].
  destruct (readyState w <? 3); [|reflexivity]. simpl.
  etransitivity; [apply (set_readyState_addressed h w 3 s Hw)|].
  apply keeps_addressed_same; reflexivity.
Qed.

Lemma fire_all_addressed ready s : keeps_addressed s (fire_all ready s).
Proof.
  revert s. induction ready as [|t rest IH]; intros s; simpl.
  - reflexivity.
  - etransitivity; [|apply IH]. apply run_task_addressed.
    unfold fire. preserves_split;
      first [ apply sendMsg_addressed | apply typing_fire_addressed
            | preserves_same keeps_addressed_same ].
Qed.

Lemma step_addressed s e : keeps_addressed s (step s e).
Proof.
  destruct e; unfold step.
  8: { unfold tick. etransitivity; [|apply fire_all_addressed].
       apply keeps_addressed_same; reflexivity. }
  all: apply run_task_addressed.
  5: apply net_open_addressed.
  6: apply net_close_addressed.
  all: unfold change_sender, effect_cleanup, input_msg, notifyTyping, click_send,
         net_message.
  all: preserves_split.
  all: first [ apply connectWS_addressed | apply sendMsg_addressed
             | apply onmessage_addressed | apply ws_close_addressed
             | preserves_same keeps_addressed_same ].
Qed.

(** X11.  In every state the page can reach, each socket it created was
    created for a non-empty identity and its URL is the base URL
    followed by that identity; and [lastSender.current] is the identity
    of the socket [ws.current] refers to, the one its message handler
    compares senders with, or the empty string when the page has not
    connected yet. *)
Theorem sockets_are_addressed s :
  reachable s ->
  (forall h w, sockets s !! h = Some w ->
               url w = WS_BASE_URL +:+ ws_senderId w /\ ws_senderId w <> "")
  /\ match ws_current s with
     | Some h => exists w, sockets s !! h = Some w /\ ws_senderId w = lastSender s
     | None => lastSender s = ""
     end.
Proof.
  induction 1 as [|s e _ IH].
  - split; [|reflexivity]. intros h w Hw. simpl in Hw.
    rewrite lookup_nil in Hw. discriminate.
  - exact (step_addressed s e IH).
Qed.

End Addressed.

(** ** No reconnection without the user *)

Section Quiet.
Context {RT : Runtime}.

Lemma fire_all_typing ready s :
  Forall (fun t => is_typing_timer t = true) ready ->
  sockets (fire_all ready s) = sockets s
  /\ ws_current (fire_all ready s) = ws_current s
  /\ timers (fire_all ready s) = timers s.
Proof.
  revert s. induction ready as [|[i d [c|c]] rest IH]; intros s Hall; simpl.
  - repeat split.
  - apply Forall_cons in Hall as [H _]. discriminate H.
  - apply Forall_cons in Hall as [_ Hall]. rewrite typing_timer_runs.
    match goal with |- context [fire_all rest ?s0] =>
      destruct (IH s0 Hall) as (H1 & H2 & H3)
    end.
    rewrite H1, H2, H3. repeat split.
Qed.

Lemma no_retry_typing s t :
  no_retry_pending s -> t ∈ timers s -> is_typing_timer t = true.
Proof.
  intros Hn Hin. unfold is_typing_timer.
  destruct (cb t) as [c|c] eqn:Hcb; [|reflexivity].
  exfalso. exact (Hn t c Hin Hcb).
Qed.

Lemma tick_quiet s :
  no_retry_pending s ->
  sockets (tick s) = sockets s /\ ws_current (tick s) = ws_current s
  /\ no_retry_pending (tick s).
Proof.
  intros Hn. unfold tick.
  match goal with |- context [fire_all ?r ?s0] =>
    destruct (fire_all_typing r s0) as (H1 & H2 & H3)
  end.
  { apply Forall_forall. intros t Hin. simpl in Hin.
    apply list_elem_of_filter in Hin as [_ Hin]. eapply no_retry_typing; eassumption. }
  rewrite H1, H2. split; [reflexivity|]. split; [reflexivity|].
  intros t c Hin. rewrite H3 in Hin. simpl in Hin.
  apply list_elem_of_filter in Hin as [_ Hin]. exact (Hn t c Hin).
Qed.

Lemma ticks_quiet n : forall s,
  no_retry_pending s ->
  sockets (ticks n s) = sockets s /\ ws_current (ticks n s) = ws_current s.
Proof.
  induction n as [|n IH]; intros s Hn; simpl; [split; reflexivity|].
  destruct (tick_quiet s Hn) as (H1 & H2 & H3).
  destruct (IH (tick s) H3) as [H4 H5]. split; congruence.
Qed.

(** X12.  The page does not reconnect on its own.  The close handler
    only writes to the log: it creates no socket and queues no timer.
    And as long as no retry of [sendMsg] is pending, the passing of time
    creates, closes and replaces no socket, so that a channel the
    network closed stays closed until the user acts. *)
Theorem no_reconnect_without_user s h :
  no_retry_pending s ->
  ws_current s = Some h ->
  let s' := step s (NetClose h) in
  timers s' = timers s
  /\ ws_current s' = ws_current s
  /\ length (sockets s') = length (sockets s)
  /\ forall n,
       sockets (ticks n s') = sockets s'
       /\ ws_current (ticks n s') = Some h
       /\ ws_open (ticks n s') = false.
Proof.
  intros Hn Hc s'.
  assert (timers s' = timers s /\ ws_current s' = ws_current s
          /\ length (sockets s') = length (sockets s) /\ ws_open s' = false)
    as (Ht & Hc' & Hl & Ho).
  { subst s'. unfold step.
    rewrite (returns_run_task _ _ (dispatch_returns (NetClose h))).
    unfold net_close. rewrite (bind_ret_eq _ _ s (sockets s) s) by reflexivity.
    unfold ws_open. rewrite Hc.
    destruct (sockets s !! h) as [w|] eqn:Hw.
    - destruct (readyState w <? 3) eqn:Hlt; simpl.
      + rewrite length_insert, Hc.
        rewrite list_lookup_insert_eq by (eapply lookup_lt_Some; eassumption).
        repeat split.
      + rewrite Hc, Hw. apply Nat.ltb_ge in Hlt.
        repeat split. apply Nat.eqb_neq. lia.
    - simpl. rewrite Hc, Hw. repeat split. }
  split; [exact Ht|]. split; [exact Hc'|]. split; [exact Hl|].
  intros n.
  assert (no_retry_pending s') as Hn'
    by (intros t c Hin; rewrite Ht in Hin; exact (Hn t c Hin)).
  destruct (ticks_quiet n s' Hn') as [H1 H2].
  split; [exact H1|]. split; [congruence|].
  rewrite <- Ho. apply conn_kept_ws_open. split; assumption.
Qed.

End Quiet.

(** ** One timer for the debouncer *)

Section OneTimer.
Context {RT : Runtime}.

#[local] Instance keeps_one_debounce_preorder : PreOrder keeps_one_debounce.
Proof.
  split.
  - intros s H. exact H.
  - intros s1 s2 s3 H12 H23 H. apply H23, H12, H.
Qed.

Lemma keeps_one_debounce_same s s' :
  timers s' = timers s -> typingTimeout s' = typingTimeout s ->
  keeps_one_debounce s s'.
Proof.
  intros Ht Hi [H1 H2]. split.
  - apply (keeps_designated_same s s' Ht Hi H1).
  - unfold typing_timers in *. rewrite Ht. exact H2.
Qed.

Lemma typing_filter_fewer (P : timer -> Prop) `{!forall t, Decision (P t)} (l : list timer) :
  length (List.filter is_typing_timer (filter P l))
  <= length (List.filter is_typing_timer l).
Proof.
  induction l as [|t l IH]; [reflexivity|].
  rewrite filter_cons. destruct (decide (P t)); simpl;
    destruct (is_typing_timer t); simpl; lia.
Qed.

Lemma setTimeout_retry_one_debounce c d :
  preserves keeps_one_debounce (setTimeout (CbSendMsg c) d).
Proof.
  intros s [H1 H2]. split.
  - apply (setTimeout_retry_designated c d s H1).
  - unfold typing_timers in *. simpl. rewrite List.filter_app, length_app. simpl.
    lia.
Qed.

Lemma no_typing_left (l : list timer) (old : option nat) :
  (forall t, t ∈ l -> is_typing_timer t = true -> old = Some (tid t)) ->
  List.filter is_typing_timer
    (match old with
     | Some i => filter (fun t => tid t <> i) l
     | None => l
     end) = [].
Proof.
  intros H. destruct old as [i|].
  - induction l as [|t l IH]; [reflexivity|].
    rewrite filter_cons. destruct (decide (tid t <> i)) as [Hne|_].
    + simpl. destruct (is_typing_timer t) eqn:Ht.
      * specialize (H t (list_elem_of_here _ _) Ht). congruence.
      * apply IH. intros t' Hin. apply H. right. exact Hin.
    + apply IH. intros t' Hin. apply H. right. exact Hin.
  - induction l as [|t l IH]; [reflexivity|].
    simpl. destruct (is_typing_timer t) eqn:Ht.
    + specialize (H t (list_elem_of_here _ _) Ht). discriminate.
    + apply IH. intros t' Hin. apply H. right. exact Hin.
Qed.

Lemma notifyTyping_timers c s :
  timers (final (notifyTyping c s))
  = match typingTimeout s with
    | Some i => filter (fun t => tid t <> i) (timers s)
    | None => timers s
    end ++ [{| tid := next_timer s; due := now s + 100; cb := CbTyping c |}]
  /\ typingTimeout (final (notifyTyping c s)) = Some (next_timer s)
  /\ next_timer (final (notifyTyping c s)) = S (next_timer s).
Proof.
  unfold notifyTyping, bind, gets, clearTimeout, modify, setTimeout. simpl.
  destruct (typingTimeout s); simpl; repeat split.
Qed.

Lemma notifyTyping_one_debounce c : preserves keeps_one_debounce (notifyTyping c).
Proof.
  intros s [H1 H2]. split.
  - apply (notifyTyping_designated c s H1).
  - destruct (notifyTyping_timers c s) as (Ht & _). unfold typing_timers.
    rewrite Ht, List.filter_app, length_app, no_typing_left; [simpl; lia|].
    intros t Hin Hty. unfold is_typing_timer in Hty.
    destruct (cb t) as [c'|c'] eqn:Hcb; [discriminate|].
    exact (H1 t c' Hin Hcb).
Qed.

Lemma connectWS_one_debounce id : preserves keeps_one_debounce (connectWS id).
Proof.
  intros s. destruct (connectWS_cases id s) as [-> | [[_ ->] | [_ ->]]]; simpl.
  - reflexivity.
  - apply keeps_one_debounce_same; reflexivity.
  - apply keeps_one_debounce_same; reflexivity.
Qed.

Lemma sendMsg_one_debounce c : preserves keeps_one_debounce (sendMsg c).
Proof.
  unfold sendMsg. preserves_split;
    first [ apply connectWS_one_debounce | apply setTimeout_retry_one_debounce
          | preserves_same keeps_one_debounce_same ].
Qed.

Lemma typing_fire_one_debounce c : preserves keeps_one_debounce (typing_fire c).
Proof.
  unfold typing_fire. preserves_split; preserves_same keeps_one_debounce_same.
Qed.

Lemma onmessage_one_debounce id data :
  preserves keeps_one_debounce (onmessage id data).
Proof.
  unfold onmessage, js_and. preserves_split; preserves_same keeps_one_debounce_same.
Qed.

Lemma run_task_one_debounce m s :
  preserves keeps_one_debounce m -> keeps_one_debounce s (run_task m s).
Proof.
  intros H. apply preserves_run_task; [apply _| |exact H].
  intros v s0. apply keeps_one_debounce_same; reflexivity.
Qed.

Lemma fire_all_one_debounce ready s : keeps_one_debounce s (fire_all ready s).
Proof.
  revert s. induction ready as [|t rest IH]; intros s; simpl.
  - reflexivity.
  - etransitivity; [|apply IH]. apply run_task_one_debounce.
    unfold fire. preserves_split;
      first [ apply sendMsg_one_debounce | apply typing_fire_one_debounce
            | preserves_same keeps_one_debounce_same ].
Qed.

Lemma step_one_debounce s e : keeps_one_debounce s (step s e).
Proof.
  destruct e; unfold step.
  8: { unfold tick. etransitivity; [|apply fire_all_one_debounce].
       intros [H1 H2]. split.
       - apply (keeps_designated_fewer s); [|reflexivity|exact H1].
         simpl. intros t Hin. apply list_elem_of_filter in Hin as [_ Hin]. exact Hin.
       - unfold typing_timers in *. simpl.
         etransitivity; [apply typing_filter_fewer|exact H2]. }
  all: apply run_task_one_debounce.
  all: unfold change_sender, effect_cleanup, input_msg, click_send,
         net_open, net_message, net_close, onopen, onclose.
  all: preserves_split.
  all: first [ apply connectWS_one_debounce | apply sendMsg_one_debounce
             | apply onmessage_one_debounce | apply notifyTyping_one_debounce
             | preserves_same keeps_one_debounce_same ].
Qed.

(** X13.  In every state the page can reach, at most one timer of the
    debouncer is pending, and it is the one whose id
    [typingTimeout.current] holds: each call of [notifyTyping] cancels
    the timer of the call before it. *)
Theorem one_debounce_timer s :
  reachable s ->
  length (typing_timers s) <= 1
  /\ forall t, t ∈ typing_timers s -> typingTimeout s = Some (tid t).
Proof.
  intros Hr.
  assert (one_debounce s) as [H1 H2].
  { induction Hr as [|s e _ IH].
    - split; [|simpl; lia]. intros t c Hin. simpl in Hin.
      apply elem_of_nil in Hin. contradiction.
    - exact (step_one_debounce s e IH). }
  split; [exact H2|].
  intros t Hin. unfold typing_timers in Hin.
  apply list_elem_of_In, List.filter_In in Hin as [Hin Hty].
  apply list_elem_of_In in Hin. unfold is_typing_timer in Hty.
  destruct (cb t) as [c|c] eqn:Hcb; [discriminate|].
  exact (H1 t c Hin Hcb).
Qed.

End OneTimer.

(** ** Timer ids *)

Section TimerIds.
Context {RT : Runtime}.

#[local] Instance keeps_ids_fresh_preorder : PreOrder keeps_ids_fresh.
Proof.
  split.
  - intros s H. exact H.
  - intros s1 s2 s3 H12 H23 H. apply H23, H12, H.
Qed.

Lemma keeps_ids_fresh_same s s' :
  timers s' = timers s -> typingTimeout s' = typingTimeout s ->
  next_timer s' = next_timer s -> keeps_ids_fresh s s'.
Proof. intros H1 H2 H3 H. unfold ids_fresh in *. rewrite H1, H2, H3. exact H. Qed.

Lemma keeps_ids_fresh_fewer s s' :
  (forall t, t ∈ timers s' -> t ∈ timers s) ->
  typingTimeout s' = typingTimeout s -> next_timer s' = next_timer s ->
  keeps_ids_fresh s s'.
Proof.
  intros Ht Hi Hn (H1 & H2 & H3). unfold ids_fresh. rewrite Hi, Hn.
  split; [|split].
  - intros t Hin. apply H1, Ht, Hin.
  - exact H2.
  - intros t c Hin. apply H3, Ht, Hin.
Qed.

Lemma setTimeout_retry_ids_fresh c d :
  preserves keeps_ids_fresh (setTimeout (CbSendMsg c) d).
Proof.
  intros s (H1 & H2 & H3). split; [|split]; simpl.
  - intros t Hin. apply elem_of_app in Hin as [Hin|Hin].
    + specialize (H1 t Hin). lia.
    + apply list_elem_of_singleton in Hin. subst t. simpl. lia.
  - intros i Hi. specialize (H2 i Hi). lia.
  - intros t c' Hin Hcb. apply elem_of_app in Hin as [Hin|Hin].
    + exact (H3 t c' Hin Hcb).
    + apply list_elem_of_singleton in Hin. subst t. simpl.
      intros Hi. specialize (H2 _ Hi). lia.
Qed.

Lemma notifyTyping_ids_fresh c : preserves keeps_ids_fresh (notifyTyping c).
Proof.
  intros s (H1 & H2 & H3).
  destruct (notifyTyping_timers c s) as (Ht & Hi & Hn).
  assert (forall t, t ∈ timers (final (notifyTyping c s)) ->
                    (t ∈ timers s /\ tid t < next_timer s)
                    \/ t = {| tid := next_timer s; due := now s + 100; cb := CbTyping c |})
    as Hin'.
  { intros t Hin. rewrite Ht in Hin. apply elem_of_app in Hin as [Hin|Hin].
    - left. destruct (typingTimeout s).
      + apply list_elem_of_filter in Hin as [_ Hin]. split; [exact Hin|apply H1, Hin].
      + split; [exact Hin|apply H1, Hin].
    - right. apply list_elem_of_singleton in Hin. exact Hin. }
  unfold ids_fresh. rewrite Hi, Hn. split; [|split].
  - intros t Hin. destruct (Hin' t Hin) as [[_ Hlt] | ->]; simpl; lia.
  - intros i [= <-]. lia.
  - intros t c' Hin Hcb. destruct (Hin' t Hin) as [[_ Hlt] | ->].
    + intros [= E]. lia.
    + discriminate Hcb.
Qed.

Lemma connectWS_ids_fresh id : preserves keeps_ids_fresh (connectWS id).
Proof.
  intros s. destruct (connectWS_cases id s) as [-> | [[_ ->] | [_ ->]]]; simpl.
  - reflexivity.
  - apply keeps_ids_fresh_same; reflexivity.
  - apply keeps_ids_fresh_same; reflexivity.
Qed.

Lemma sendMsg_ids_fresh c : preserves keeps_ids_fresh (sendMsg c).
Proof.
  unfold sendMsg. preserves_split;
    first [ apply connectWS_ids_fresh | apply setTimeout_retry_ids_fresh
          | preserves_same keeps_ids_fresh_same ].
Qed.

Lemma typing_fire_ids_fresh c : preserves keeps_ids_fresh (typing_fire c).
Proof. unfold typing_fire. preserves_split; preserves_same keeps_ids_fresh_same. Qed.

Lemma onmessage_ids_fresh id data : preserves keeps_ids_fresh (onmessage id data).
Proof.
  unfold onmessage, js_and. preserves_split; preserves_same keeps_ids_fresh_same.
Qed.

Lemma run_task_ids_fresh m s :
  preserves keeps_ids_fresh m -> keeps_ids_fresh s (run_task m s).
Proof.
  intros H. apply preserves_run_task; [apply _| |exact H].
  intros v s0. apply keeps_ids_fresh_same; reflexivity.
Qed.

Lemma fire_all_ids_fresh ready s : keeps_ids_fresh s (fire_all ready s).
Proof.
  revert s. induction ready as [|t rest IH]; intros s; simpl.
  - reflexivity.
  - etransitivity; [|apply IH]. apply run_task_ids_fresh.
    unfold fire. preserves_split;
      first [ apply sendMsg_ids_fresh | apply typing_fire_ids_fresh
            | preserves_same keeps_ids_fresh_same ].
Qed.

Lemma step_ids_fresh s e : keeps_ids_fresh s (step s e).
Proof.
  destruct e; unfold step.
  8: { unfold tick. etransitivity; [|apply fire_all_ids_fresh].
       apply keeps_ids_fresh_fewer; try reflexivity.
       simpl. intros t Hin. apply list_elem_of_filter in Hin as [_ Hin]. exact Hin. }
  all: apply run_task_ids_fresh.
  all: unfold change_sender, effect_cleanup, input_msg, click_send,
         net_open, net_message, net_close, onopen, onclose.
  all: preserves_split.
  all: first [ apply connectWS_ids_fresh | apply sendMsg_ids_fresh
             | apply onmessage_ids_fresh | apply notifyTyping_ids_fresh
             | preserves_same keeps_ids_fresh_same ].
Qed.

Lemma reachable_ids_fresh s : reachable s -> ids_fresh s.
Proof.
  induction 1 as [|s e _ IH].
  - split; [|split].
    + intros t Hin. simpl in Hin. apply elem_of_nil in Hin. contradiction.
    + intros i Hi. discriminate Hi.
    + intros t c Hin. simpl in Hin. apply elem_of_nil in Hin. contradiction.
  - exact (step_ids_fresh s e IH).
Qed.

(** X14.  Typing never cancels a send.  In every state the page can
    reach, the timer that [notifyTyping] clears is not a pending retry
    of [sendMsg]: every retry pending before an input event is still
    pending after it, and the input event queues exactly one timer, the
    debouncer's, due 100 ms later. *)
Theorem typing_keeps_retries s v :
  reachable s ->
  (forall t c, t ∈ timers s -> cb t = CbSendMsg c -> t ∈ timers (step s (Input v)))
  /\ exists kept,
       timers (step s (Input v))
       = kept ++ [{| tid := next_timer s; due := now s + 100;
                     cb := CbTyping (render_closure s) |}]
       /\ forall t, t ∈ kept -> t ∈ timers s.
Proof.
  intros Hr. destruct (reachable_ids_fresh s Hr) as (_ & _ & H3).
  destruct (notifyTyping_timers (render_closure s) s) as (Ht & _).
  assert (timers (step s (Input v)) = timers (final (notifyTyping (render_closure s) s)))
    as Hstep.
  { unfold step. rewrite (returns_run_task _ _ (dispatch_returns (Input v))).
    unfold input_msg. erewrite bind_ret_eq by reflexivity.
    unfold bind. pose proof (notifyTyping_returns (render_closure s) s) as Hn.
    destruct (notifyTyping (render_closure s) s) as [[] s1|]; [|discriminate Hn].
    reflexivity. }
  rewrite Hstep, Ht. split.
  - intros t c Hin Hcb. apply elem_of_app. left.
    destruct (typingTimeout s) as [i|] eqn:Hi; [|exact Hin].
    apply list_elem_of_filter. split; [|exact Hin].
    intros E. apply (H3 t c Hin Hcb). congruence.
  - eexists. split; [reflexivity|].
    intros t Hin. destruct (typingTimeout s); [|exact Hin].
    apply list_elem_of_filter in Hin as [_ Hin]. exact Hin.
Qed.

End TimerIds.

(** ** Keys of the log *)

Section Keys.
Context {RT : Runtime}.

#[local] Instance keeps_keyed_preorder : PreOrder keeps_keyed.
Proof.
  split.
  - intros s H. exact H.
  - intros s1 s2 s3 H12 H23 H. apply H23, H12, H.
Qed.

Lemma keeps_keyed_same s s' : log s' = log s -> keeps_keyed s s'.
Proof. intros H. unfold keeps_keyed. rewrite H. auto. Qed.

Lemma keyed_app (l : list log_item) (new : nat -> list log_item) :
  (forall j k v,
      new (length l) !! j = Some (Elem_i k v) \/ new (length l) !! j = Some (Elem_b k v) ->
      k = length l + j) ->
  keyed l -> keyed (l ++ new (length l)).
Proof.
  intros Hnew Hl i k v H.
  assert (forall x, (l ++ new (length l)) !! i = Some x ->
                    l !! i = Some x
                    \/ (length l <= i /\ new (length l) !! (i - length l) = Some x))
    as Hsplit by (intros x Hx; apply lookup_app_Some in Hx; exact Hx).
  destruct H as [H|H]; apply Hsplit in H as [H|[Hle H]].
  - apply (Hl i k v). left. exact H.
  - specialize (Hnew (i - length l) k v (or_introl H)). lia.
  - apply (Hl i k v). right. exact H.
  - specialize (Hnew (i - length l) k v (or_intror H)). lia.
Qed.

Lemma setLog_plain_keyed (text : string) :
  preserves keeps_keyed (setLog (fun l => l ++ [Plain text])).
Proof.
  intros s H. simpl. apply (keyed_app (log s) (fun _ => [Plain text])); [|exact H].
  intros [|j] k v [E|E]; simpl in E; try discriminate;
    try (rewrite lookup_nil in E; discriminate).
Qed.

Lemma setLog_typing_keyed who :
  preserves keeps_keyed (setLog (fun l => l ++ [Elem_i (length l) who])).
Proof.
  intros s H. simpl. apply (keyed_app (log s) (fun n => [Elem_i n who])); [|exact H].
  intros [|j] k v [E|E]; simpl in E; try discriminate;
    try (rewrite lookup_nil in E; discriminate).
  injection E as <- _. lia.
Qed.

Lemma setLog_message_keyed label text :
  preserves keeps_keyed
    (setLog (fun l => l ++ [Elem_b (length l) label; Plain text])).
Proof.
  intros s H. simpl.
  apply (keyed_app (log s) (fun n => [Elem_b n label; Plain text])); [|exact H].
  intros [|[|j]] k v [E|E]; simpl in E; try discriminate;
    try (rewrite lookup_nil in E; discriminate).
  injection E as <- _. lia.
Qed.

Lemma onmessage_keyed id data : preserves keeps_keyed (onmessage id data).
Proof.
  unfold onmessage, js_and. preserves_split;
    first [ apply setLog_plain_keyed | apply setLog_typing_keyed
          | apply setLog_message_keyed | preserves_same keeps_keyed_same ].
Qed.

Lemma connectWS_keyed id : preserves keeps_keyed (connectWS id).
Proof. unfold connectWS. preserves_split; preserves_same keeps_keyed_same. Qed.

Lemma sendMsg_keyed c : preserves keeps_keyed (sendMsg c).
Proof.
  unfold sendMsg. preserves_split;
    first [ apply connectWS_keyed | preserves_same keeps_keyed_same ].
Qed.

Lemma typing_fire_keyed c : preserves keeps_keyed (typing_fire c).
Proof. unfold typing_fire. preserves_split; preserves_same keeps_keyed_same. Qed.

Lemma run_task_keyed m s : preserves keeps_keyed m -> keeps_keyed s (run_task m s).
Proof.
  intros H. apply preserves_run_task; [apply _| |exact H].
  intros v s0. apply keeps_keyed_same; reflexivity.
Qed.

Lemma fire_all_keyed ready s : keeps_keyed s (fire_all ready s).
Proof.
  revert s. induction ready as [|t rest IH]; intros s; simpl.
  - reflexivity.
  - etransitivity; [|apply IH]. apply run_task_keyed.
    unfold fire. preserves_split;
      first [ apply sendMsg_keyed | apply typing_fire_keyed
            | preserves_same keeps_keyed_same ].
Qed.

Lemma step_keyed s e : keeps_keyed s (step s e).
Proof.
  destruct e; unfold step.
  8: { unfold tick. etransitivity; [|apply fire_all_keyed].
       apply keeps_keyed_same; reflexivity. }
  all: apply run_task_keyed.
  all: unfold change_sender, effect_cleanup, input_msg, notifyTyping, click_send,
         net_open, net_message, net_close, onopen, onclose.
  all: preserves_split.
  all: first [ apply connectWS_keyed | apply sendMsg_keyed | apply onmessage_keyed
             | apply setLog_plain_keyed | preserves_same keeps_keyed_same ].
Qed.

(** X15.  In every state the page can reach, the key of every element
    of the log (a typing notice or a message label) is the position of
    the element in the log, so that no two elements of the log share a
    key. *)
Theorem log_keys_are_positions s :
  reachable s ->
  (forall i k v,
      log s !! i = Some (Elem_i k v) \/ log s !! i = Some (Elem_b k v) -> k = i)
  /\ (forall i j k v v',
        (log s !! i = Some (Elem_i k v) \/ log s !! i = Some (Elem_b k v)) ->
        (log s !! j = Some (Elem_i k v') \/ log s !! j = Some (Elem_b k v')) ->
        i = j).
Proof.
  intros Hr.
  assert (keyed (log s)) as Hk.
  { induction Hr as [|s e _ IH].
    - intros i k v [E|E]; simpl in E; rewrite lookup_nil in E; discriminate.
    - exact (step_keyed s e IH). }
  split; [exact Hk|].
  intros i j k v v' Hi Hj.
  rewrite <- (Hk i k v Hi). exact (Hk j k v' Hj).
Qed.

End Keys.

(** ** Sending across a reconnection *)

Section Delivery.
Context {RT : Runtime}.

(** X16.  [connectWS] recognises a channel only once it is OPEN.
    Called for a non-empty identity, whose URL the constructor accepts,
    while the current socket is still CONNECTING, be it for the same
    identity, it calls [close()] on that socket and creates another one:
    connecting twice before the connection is established leaves two
    sockets, one of them closing. *)
Theorem connect_while_connecting_restarts id h w s :
  id <> "" ->
  has_fragment (WS_BASE_URL +:+ id) = false ->
  ws_current s = Some h ->
  sockets s !! h = Some w ->
  readyState w = 0 ->
  connectWS id s = Ret tt (reconnected id s)
  /\ sockets (reconnected id s)
     = <[h := with_readyState 2 w]> (sockets s)
       ++ [{| url := WS_BASE_URL +:+ id; readyState := 0; ws_senderId := id |}]
  /\ ws_current (reconnected id s) = Some (length (sockets s)).
Proof.
  intros Hid Hf Hc Hw Hr. split; [|split].
  - apply connectWS_reconnect; [exact Hid| |exact Hf].
    unfold ws_open. rewrite Hc, Hw, Hr. reflexivity.
  - unfold reconnected, closed_current. simpl. rewrite Hc, Hw, Hr. reflexivity.
  - reflexivity.
Qed.

(** X17.  A send attempted while the channel is not open goes out once
    the channel opens in time.  With a non-empty identity, whose URL the
    constructor accepts, and no timer pending, a click on Send replaces
    the socket and queues the retry;
    if the new socket opens within the 300 ms, the retry sends the
    message of the click on it, exactly once, clears the draft and
    leaves no timer behind. *)
Theorem send_goes_out_once_open s d :
  ws_open s = false ->
  timers s = [] ->
  senderId s <> "" ->
  has_fragment (WS_BASE_URL +:+ senderId s) = false ->
  d < 300 ->
  let h := length (sockets s) in
  let s1 := step (ticks d (step s ClickSend)) (NetOpen h) in
  let s2 := ticks (300 - d) s1 in
  ws_current s1 = Some h
  /\ ws_open s1 = true
  /\ wire s1 = wire s
  /\ wire s2 = wire s ++ [(h, JSON_stringify (message_event (render_closure s)))]
  /\ msg s2 = ""
  /\ timers s2 = []
  /\ history s2 = history s ++ [(now s + 300, CbSendMsg (render_closure s))]
  /\ log s2 = log s ++ [Plain "WebSocket connected"].
Proof.
  intros Ho Ht Hid Hf Hd h s1 s2.
  assert (accepted (senderId s) = true) as Ha
    by (unfold accepted; rewrite Hf; apply orb_true_r).
  set (c := render_closure s).
  set (s0 := final (setTimeout (CbSendMsg c) 300 (reconnected (senderId s) s))).
  assert (step s ClickSend = s0) as Hs0.
  { unfold step, run_task, click_send. erewrite bind_ret_eq by reflexivity.
    rewrite sendMsg_not_open by assumption.
    change (c_senderId (render_closure s)) with (senderId s).
    rewrite connectWS_reconnect; [reflexivity|exact Hid| |exact Hf].
    rewrite Ho. reflexivity. }
  assert (timers s0 = [{| tid := next_timer s; due := now s + 300; cb := CbSendMsg c |}])
    as Ht0 by (subst s0; simpl; rewrite Ht; reflexivity).
  assert (ticks d s0 = set_now (now s + d) s0) as Hwait.
  { rewrite ticks_idle; [reflexivity|]. rewrite Ht0. repeat constructor. simpl.
    change (now s0) with (now s). lia. }
  set (opened := <[h := with_readyState 1
                     {| url := WS_BASE_URL +:+ senderId s; readyState := 0;
                        ws_senderId := senderId s |}]>
                   (sockets s0)).
  assert (sockets s0 !! h
          = Some {| url := WS_BASE_URL +:+ senderId s; readyState := 0;
                    ws_senderId := senderId s |}) as Hh.
  { subst s0 h. simpl.
    rewrite lookup_app_r by (rewrite closed_current_length; lia).
    rewrite closed_current_length, Nat.sub_diag. reflexivity. }
  assert (s1 = set_log (log s ++ [Plain "WebSocket connected"])
                 (set_sockets opened (set_now (now s + d) s0))) as Hs1.
  { subst s1. rewrite Hs0, Hwait. unfold step.
    rewrite (returns_run_task _ _ (dispatch_returns (NetOpen h))).
    unfold net_open. erewrite bind_ret_eq by reflexivity.
    change (sockets (set_now (now s + d) s0)) with (sockets s0).
    rewrite Hh. reflexivity. }
  assert (ws_current s1 = Some h) as Hc1 by (rewrite Hs1; reflexivity).
  assert (ws_open s1 = true) as Ho1.
  { unfold ws_open. rewrite Hc1, Hs1. simpl. subst opened.
    rewrite list_lookup_insert_eq by (eapply lookup_lt_Some; exact Hh).
    reflexivity. }
  assert (timers s1 = [{| tid := next_timer s; due := now s + 300; cb := CbSendMsg c |}])
    as Ht1 by (rewrite Hs1; exact Ht0).
  assert (now s1 = now s + d) as Hn1 by (rewrite Hs1; reflexivity).
  assert (s2 = set_msg ""
                 (set_wire (wire s ++ [(h, JSON_stringify (message_event c))])
                    (set_history (history s ++ [(now s + 300, CbSendMsg c)])
                       (set_timers [] (set_now (now s + 300) s1)))))
    as Hs2.
  { subst s2. replace (300 - d) with (S (299 - d)) by lia.
    rewrite (ticks_until_single _ (299 - d) s1 Ht1) by (simpl; rewrite Hn1; lia).
    simpl. erewrite retry_sends.
    - rewrite Hs1. reflexivity.
    - exact Ho1.
    - exact Hc1. }
  split; [exact Hc1|]. split; [exact Ho1|].
  split; [rewrite Hs1; reflexivity|].
  rewrite Hs2. repeat split. rewrite Hs1. reflexivity.
Qed.

End Delivery.

(** * Retries, the debouncer and exceptions along arbitrary runs *)

(** ** The retries of a send *)

Section Retries.
Context {RT : Runtime}.

#[local] Instance retries_kept_preorder : PreOrder retries_kept.
Proof.
  split.
  - intros s. split; [reflexivity|]. split; [reflexivity|]. auto.
  - intros s1 s2 s3 (A1 & A2 & A3) (B1 & B2 & B3). split; [congruence|].
    split; [etransitivity; eassumption|].
    intros t c Hin Hcb. eapply B3; [|exact Hcb]. eapply A3; eassumption.
Qed.


















End Retries.

(** ** The debouncer among other timers *)

Section DebounceAmongTimers.
Context {RT : Runtime}.

#[local] Instance only_messages_preorder : PreOrder only_messages.
Proof.
  split.
  - intros s. repeat split. exists []. split; [symmetry; apply app_nil_r|constructor].
  - intros s1 s2 s3 (A1 & A2 & A3 & n1 & A4 & A5) (B1 & B2 & B3 & n2 & B4 & B5).
    split; [congruence|]. split; [congruence|]. split; [congruence|].
    exists (n1 ++ n2). split.
    + rewrite B4, A4. symmetry. apply app_assoc.
    + apply Forall_app. split; assumption.
Qed.

Lemma only_messages_same s s' :
  history s' = history s -> senderId s' = senderId s ->
  receiverId s' = receiverId s -> wire s' = wire s ->
  only_messages s s'.
Proof.
  intros H1 H2 H3 H4. unfold only_messages, typing_runs. rewrite H1.
  repeat split; try assumption.
  exists []. split; [rewrite H4; symmetry; apply app_nil_r|constructor].
Qed.

#[local] Instance debounce_kept_preorder : PreOrder debounce_kept.
Proof.
  split.
  - intros s. reflexivity.
  - intros s1 s2 s3 H12 H23. unfold debounce_kept in *. congruence.
Qed.


Lemma connectWS_only_messages id : preserves only_messages (connectWS id).
Proof. unfold connectWS. preserves_split; preserves_same only_messages_same. Qed.


Lemma ws_send_message h c :
  preserves only_messages (ws_send h (JSON_stringify (message_event c))).
Proof.
  intros s. unfold ws_send.
  destruct (sockets s !! h) as [w|]; [|reflexivity].
  destruct (readyState w) as [|[|n]]; try reflexivity.
  simpl. repeat split. exists [(h, JSON_stringify (message_event c))].
  split; [reflexivity|]. constructor; [|constructor]. exists c. reflexivity.
Qed.

Lemma sendMsg_only_messages c : preserves only_messages (sendMsg c).
Proof.
  unfold sendMsg. preserves_split;
    first [ apply connectWS_only_messages | apply ws_send_message
          | preserves_same only_messages_same ].
Qed.





















Lemma input_step_eq s v :
  step s (Input v) = set_msg v (final (notifyTyping (render_closure s) s)).
Proof.
  unfold step. rewrite (returns_run_task _ _ (dispatch_returns (Input v))).
  unfold input_msg. erewrite bind_ret_eq by reflexivity.
  unfold bind. pose proof (notifyTyping_returns (render_closure s) s) as Hn.
  destruct (notifyTyping (render_closure s) s) as [[] s1|]; [|discriminate Hn].
  reflexivity.
Qed.

(** What [notifyTyping] leaves alone. *)
Lemma notifyTyping_frame c s :
  history (final (notifyTyping c s)) = history s
  /\ wire (final (notifyTyping c s)) = wire s
  /\ senderId (final (notifyTyping c s)) = senderId s
  /\ receiverId (final (notifyTyping c s)) = receiverId s
  /\ now (final (notifyTyping c s)) = now s
  /\ uncaught (final (notifyTyping c s)) = uncaught s.
Proof.
  unfold notifyTyping, bind, gets, clearTimeout, modify, setTimeout. simpl.
  destruct (typingTimeout s); repeat split.
Qed.






End DebounceAmongTimers.

(** ** No exception escapes *)

Section NoException.
Context {RT : Runtime}.

Lemma sendMsg_safe c s :
  accepted (c_senderId c) = true -> identities_accepted s ->
  exists s', sendMsg c s = Ret tt s'
             /\ uncaught s' = uncaught s /\ identities_accepted s'.
Proof.
  intros Ha [Hs Ht].
  pose proof (sendMsg_returns c s Ha) as Hret.
  pose proof (sendMsg_uncaught c s) as Hu.
  destruct (sendMsg_only_messages c s) as (_ & Hsid & _).
  destruct (ws_open s) eqn:Ho.
  - destruct (ws_open_inv s Ho) as (h & w & Hc & _).
    rewrite (sendMsg_open c s h Ho Hc) in *. eexists. split; [reflexivity|].
    split; [reflexivity|]. split; [exact Hs|exact Ht].
  - destruct (sendMsg_requeues c s Ho Ha) as (s' & E & Ht' & _ & _ & _ & _ & Hu' & _).
    rewrite E in *. exists s'. split; [reflexivity|]. split; [exact Hu'|].
    split; [simpl in Hsid; rewrite Hsid; exact Hs|].
    intros t c' Hin Hcb. rewrite Ht' in Hin. apply elem_of_app in Hin as [Hin|Hin].
    + exact (Ht t c' Hin Hcb).
    + apply list_elem_of_singleton in Hin. subst t. simpl in Hcb.
      injection Hcb as <-. exact Ha.
Qed.

Lemma fire_safe t s :
  identities_accepted s ->
  (forall c, cb t = CbSendMsg c -> accepted (c_senderId c) = true) ->
  uncaught (run_task (fire t) s) = uncaught s
  /\ identities_accepted (run_task (fire t) s).
Proof.
  intros Hs Ha. destruct t as [i d [c|c]].
  - unfold run_task, fire. erewrite bind_ret_eq by reflexivity.
    cbn [cb].
    match goal with |- context [sendMsg c ?s0] =>
      destruct (sendMsg_safe c s0) as (s' & -> & Hu & Hi)
    end.
    + apply Ha. reflexivity.
    + exact Hs.
    + split; [exact Hu|exact Hi].
  - rewrite typing_timer_runs. split; [reflexivity|exact Hs].
Qed.

Lemma fire_all_safe ready : forall s,
  identities_accepted s ->
  (forall t c, t ∈ ready -> cb t = CbSendMsg c -> accepted (c_senderId c) = true) ->
  uncaught (fire_all ready s) = uncaught s
  /\ identities_accepted (fire_all ready s).
Proof.
  induction ready as [|t rest IH]; intros s Hs Ha; simpl.
  - split; [reflexivity|exact Hs].
  - destruct (fire_safe t s Hs) as [Hu Hi].
    { intros c. apply Ha. left. }
    destruct (IH (run_task (fire t) s) Hi) as [Hu' Hi'].
    { intros t' c Hin. apply Ha. right. exact Hin. }
    split; [congruence|exact Hi'].
Qed.

Lemma step_safe s e :
  identities_accepted s -> event_safe e ->
  uncaught (step s e) = uncaught s /\ identities_accepted (step s e).
Proof.
  intros [Hs Ht] He. destruct e as [v|v|v| |h|h data|h|]; simpl in He.
  - unfold step. rewrite (returns_run_task _ _ (dispatch_returns (ChangeSender v) He)).
    rewrite change_sender_eq. destruct (String.eqb (senderId s) v).
    + split; [reflexivity|]. split; [exact He|exact Ht].
    + match goal with |- context [connectWS v ?s0] =>
        destruct (connectWS_frame v s0) as (Ht' & _ & _ & _ & _ & Hu & _);
        destruct (connectWS_only_messages v s0) as (_ & Hsid & _)
      end.
      split; [exact Hu|]. split; [rewrite Hsid; exact He|].
      rewrite Ht'. exact Ht.
  - split; [reflexivity|]. split; [exact Hs|exact Ht].
  - rewrite input_step_eq.
    destruct (notifyTyping_timers (render_closure s) s) as (Ht' & _).
    destruct (notifyTyping_frame (render_closure s) s) as (_ & _ & Hsid & _ & _ & Hu).
    split; [exact Hu|].
    split; [change (accepted (senderId (final (notifyTyping (render_closure s) s)))
                    = true); rewrite Hsid; exact Hs|].
    intros t c Hin Hcb.
    change (t ∈ timers (final (notifyTyping (render_closure s) s))) in Hin.
    rewrite Ht' in Hin. apply elem_of_app in Hin as [Hin|Hin].
    + apply (Ht t c); [|exact Hcb]. destruct (typingTimeout s); [|exact Hin].
      apply list_elem_of_filter in Hin as [_ Hin]. exact Hin.
    + apply list_elem_of_singleton in Hin. subst t. discriminate Hcb.
  - unfold step, run_task, click_send. erewrite bind_ret_eq by reflexivity.
    destruct (sendMsg_safe (render_closure s) s Hs (conj Hs Ht)) as (s' & -> & Hu & Hi).
    split; [exact Hu|exact Hi].
  - unfold step. rewrite (returns_run_task _ _ (dispatch_returns (NetOpen h))).
    unfold net_open. rewrite (bind_ret_eq _ _ s (sockets s) s) by reflexivity.
    destruct (sockets s !! h) as [w|]; [|split; [reflexivity|split; assumption]].
    destruct (readyState w =? 0); split; try reflexivity; split; assumption.
  - destruct (net_message_only_log h data s) as [l ->].
    split; [reflexivity|]. split; [exact Hs|exact Ht].
  - unfold step. rewrite (returns_run_task _ _ (dispatch_returns (NetClose h))).
    unfold net_close. rewrite (bind_ret_eq _ _ s (sockets s) s) by reflexivity.
    destruct (sockets s !! h) as [w|]; [|split; [reflexivity|split; assumption]].
    destruct (readyState w <? 3); split; try reflexivity; split; assumption.
  - unfold step, tick.
    match goal with |- context [fire_all ?r ?s0] =>
      destruct (fire_all_safe r s0) as [Hu Hi]
    end.
    + split; [exact Hs|]. intros t c Hin. simpl in Hin.
      apply list_elem_of_filter in Hin as [_ Hin]. apply Ht, Hin.
    + intros t c Hin. simpl in Hin.
      apply list_elem_of_filter in Hin as [_ Hin]. apply Ht, Hin.
    + split; [rewrite Hu; reflexivity|exact Hi].
Qed.

(** X6.  No exception escapes a task of the page as long as the
    constructor accepts every identity involved (the one on the page,
    those captured by pending retries, and those entered: none has a
    fragment) and every frame received can be displayed (a sender React
    can render, a message that converts to a string).  Along every such
    sequence of user events, network events and timers, the record of
    uncaught exceptions stays as it was: [send] is never called on a
    socket that is not open, and what [JSON.parse] and the reading of a
    field throw is caught by the handler. *)
Theorem no_uncaught_exception s es :
  identities_accepted s ->
  Forall event_safe es ->
  uncaught (run s es) = uncaught s /\ identities_accepted (run s es).
Proof.
  intros Hs Hes. revert s Hs.
  induction Hes as [|e rest He _ IH]; intros s Hs; simpl.
  - split; [reflexivity|exact Hs].
  - destruct (step_safe s e Hs He) as [Hu Hi].
    destruct (IH (step s e) Hi) as [Hu' Hi'].
    split; [congruence|exact Hi'].
Qed.

End NoException.

(** * The properties on the reference runtime *)

#[local] Existing Instance Reference.runtime.





(** C3 on the connected page. *)
Lemma connect_again_witness :
  ws_open connected = true
  /\ lastSender connected = "u1"
  /\ connectWS "u1" connected = Ret tt connected
  /\ step connected (ChangeSender "u1") = connected.
Proof.
  split; [reflexivity|]. split; [reflexivity|].
  destruct (connect_again_is_noop (RT := Reference.runtime) "u1" connected
              (reachable_run init _ reachable_init) eq_refl eq_refl)
    as (H1 & H2 & _).
  split; [exact H1|apply H2; reflexivity].
Defined.



(** C5 on a payload that is not JSON. *)
Lemma malformed_payload_witness :
  JSON_parse "oops" = None
  /\ onmessage "u1" "oops" init = Ret tt (set_log [Plain "oops"] init).
Proof.
  split; [reflexivity|].
  destruct (malformed_payload_is_logged (RT := Reference.runtime) "u1" "oops" init ltac:(reflexivity)) as (H & _).
  exact H.
Defined.

(** C7 on a socket that has closed: the user types, the connection
    closes, the timer fires. *)
Lemma typing_timer_noop_witness :
  ws_open (step connected (NetClose 0)) = false
  /\ typing_fire {| c_senderId := "u1"; c_receiverId := "u2"; c_msg := "h" |}
       (step connected (NetClose 0))
     = Ret tt (step connected (NetClose 0)).
Proof.
  split; [reflexivity|].
  destruct (typing_timer_noop (RT := Reference.runtime)
              {| c_senderId := "u1"; c_receiverId := "u2"; c_msg := "h" |}
              (step connected (NetClose 0)) ltac:(left; reflexivity)) as (H & _).
  exact H.
Defined.

(** C10, counterexample.  The payload [null] parses, is neither a typing
    event nor a message, and is appended to the log. *)
Lemma null_payload_is_logged :
  JSON_parse "null" = Some JNull
  /\ is_typing_event JNull = false
  /\ is_message_event JNull = false
  /\ log init = []
  /\ onmessage "u1" "null" init = Ret tt (set_log [Plain "null"] init).
Proof. repeat split. Qed.

(** C10, the amended statement on the empty object. *)
Lemma unrecognised_payload_witness :
  JSON_parse "{}" = Some (JObj [])
  /\ onmessage "u1" "{}" connected = Ret tt connected.
Proof.
  split; [reflexivity|].
  destruct (unrecognised_payload_is_ignored (RT := Reference.runtime) "u1" "{}" (JObj []) connected
              ltac:(reflexivity) ltac:(reflexivity) ltac:(reflexivity)) as (H & _).
  apply H. discriminate.
Defined.

(** C8 with only the sender registered. *)
Lemma unroutable_event_witness :
  let e := {| Router.sender_id := "u1"; Router.receiver_id := "u2";
              Router.msg := Some "hi"; Router.typing := Some false |} in
  let r := Router.on_connect "u1" 0 Router.empty in
  Router.registry r !! "u2" = None
  /\ Router.on_event 0 e r = r.
Proof.
  cbv zeta. split; [reflexivity|].
  destruct (unroutable_event_is_discarded
              (Router.on_connect "u1" 0 Router.empty) 0
              {| Router.sender_id := "u1"; Router.receiver_id := "u2";
                 Router.msg := Some "hi"; Router.typing := Some false |}
              ltac:(reflexivity)) as (H & _).
  exact H.
Defined.

(** * The further properties on the reference runtime *)

(** X2: an object with [typing], [sender_id] and [msg] is shown as a
    typing notice only. *)
Lemma typing_notice_witness :
  let v := JObj [("typing", JBool true); ("sender_id", JStr "u2"); ("msg", JStr "hi")] in
  JSON_parse (JSON_stringify v) = Some v
  /\ onmessage "u1" (JSON_stringify v) connected
     = Ret tt (set_log (log connected ++ [Elem_i 1 (Some (JStr "u2"))]) connected).
Proof.
  cbv zeta. split; [vm_compute; reflexivity|].
  apply (typing_notice_is_shown (RT := Reference.runtime) "u1" _
           (JObj [("typing", JBool true); ("sender_id", JStr "u2"); ("msg", JStr "hi")])
           connected); reflexivity.
Defined.

(** X3: a message from "u2" on the socket of "u1", and the number 1 as
    sender on the socket of the identity "1". *)
Lemma message_witness :
  let v := JObj [("sender_id", JStr "u2"); ("msg", JStr "hi")] in
  let n := JObj [("sender_id", JNum 1%Z); ("msg", JStr "hi")] in
  onmessage "u1" (JSON_stringify v) connected
  = Ret tt (set_log (log connected ++ [Elem_b 1 (Some (JStr "u2")); Plain " hi"])
              connected)
  /\ onmessage "1" (JSON_stringify n) connected
     = Ret tt (set_log (log connected ++ [Elem_b 1 (Some (JNum 1%Z)); Plain " hi"])
                 connected).
Proof.
  cbv zeta. split.
  - apply (message_is_shown (RT := Reference.runtime) "u1" _
             (JObj [("sender_id", JStr "u2"); ("msg", JStr "hi")]) connected);
      try reflexivity. discriminate.
  - apply (message_is_shown (RT := Reference.runtime) "1" _
             (JObj [("sender_id", JNum 1%Z); ("msg", JStr "hi")]) connected);
      try reflexivity. discriminate.
Defined.

(** X4: the message "hi" of "u1" read back on the socket of "u1" and on
    the socket of "u2", and an empty draft read back. *)
Lemma sent_message_witness :
  let c := {| c_senderId := "u1"; c_receiverId := "u2"; c_msg := "hi" |} in
  let e := {| c_senderId := "u1"; c_receiverId := "u2"; c_msg := "" |} in
  onmessage "u1" (JSON_stringify (message_event c)) connected
  = Ret tt (set_log (log connected ++ [Elem_b 1 (Some (JStr "You")); Plain " hi"])
              connected)
  /\ onmessage "u2" (JSON_stringify (message_event c)) connected
     = Ret tt (set_log (log connected ++ [Elem_b 1 (Some (JStr "u1")); Plain " hi"])
                 connected)
  /\ onmessage "u2" (JSON_stringify (message_event e)) connected = Ret tt connected.
Proof.
  cbv zeta.
  destruct (sent_message_read_back (RT := Reference.runtime) "u1"
              {| c_senderId := "u1"; c_receiverId := "u2"; c_msg := "hi" |}
              connected ltac:(vm_compute; reflexivity)) as [H1 _].
  destruct (sent_message_read_back (RT := Reference.runtime) "u2"
              {| c_senderId := "u1"; c_receiverId := "u2"; c_msg := "hi" |}
              connected ltac:(vm_compute; reflexivity)) as [H2 _].
  destruct (sent_message_read_back (RT := Reference.runtime) "u2"
              {| c_senderId := "u1"; c_receiverId := "u2"; c_msg := "" |}
              connected ltac:(vm_compute; reflexivity)) as [_ H3].
  split; [apply H1; discriminate|]. split; [apply H2; discriminate|].
  apply H3. right. reflexivity.
Defined.

(** X5: the typing event of "u1" read back on the socket of "u2". *)
Lemma sent_typing_witness :
  let c := {| c_senderId := "u1"; c_receiverId := "u2"; c_msg := "h" |} in
  onmessage "u2" (JSON_stringify (typing_event c)) connected
  = Ret tt (set_log (log connected ++ [Elem_i 1 (Some (JStr "u1"))]) connected).
Proof.
  cbv zeta.
  exact (sent_typing_read_back (RT := Reference.runtime) "u2"
           {| c_senderId := "u1"; c_receiverId := "u2"; c_msg := "h" |}
           connected ltac:(vm_compute; reflexivity) ltac:(discriminate)).
Defined.

(** X6: the user connects, clicks Send before the channel is open,
    receives a payload that is not JSON and a message, and half a
    second passes. *)
Lemma no_uncaught_witness :
  uncaught
    (run init
       ([ChangeSender "u1"; ChangeReceiver "u2"; ClickSend; NetOpen 1;
         NetMessage 1 "oops";
         NetMessage 1 (JSON_stringify
                         (message_event {| c_senderId := "u2"; c_receiverId := "u1";
                                           c_msg := "hi" |}));
         Input "h"] ++ replicate 500 Tick))
  = [].
Proof.
  assert (identities_accepted init) as Hinit.
  { split; [reflexivity|]. intros t c Hin. simpl in Hin.
    apply elem_of_nil in Hin. contradiction. }
  refine (proj1 (no_uncaught_exception (RT := Reference.runtime) init _ Hinit _)).
  apply Forall_app. split.
  - repeat (apply List.Forall_cons; [first [exact I|vm_compute; reflexivity]|]).
    apply List.Forall_nil.
  - apply Forall_replicate. exact I.
Defined.

(** X7: a click on Send while the socket is connecting. *)
Lemma silent_until_open_witness :
  ws_open connecting = false
  /\ wire (step connecting ClickSend) = wire connecting
  /\ ws_open (step connecting ClickSend) = false.
Proof.
  split; [vm_compute; reflexivity|].
  destruct (silent_until_open (RT := Reference.runtime) connecting ClickSend
              ltac:(vm_compute; reflexivity)) as [H1 H2].
  split; [exact H1|]. apply H2. discriminate.
Defined.

(** X8: after the identity has changed twice, only the last socket can
    be live. *)
Lemma one_live_socket_witness :
  let s := run connected [ChangeSender "u3"; ChangeSender "u4"] in
  sockets s !! 2 = Some {| url := WS_BASE_URL +:+ "u4"; readyState := 0;
                           ws_senderId := "u4" |}
  /\ ws_current s = Some 2.
Proof.
  cbv zeta. split; [vm_compute; reflexivity|].
  exact (at_most_one_live_socket (RT := Reference.runtime)
           (run connected [ChangeSender "u3"; ChangeSender "u4"])
           (reachable_run _ _ (reachable_run init _ reachable_init))
           2 _ ltac:(vm_compute; reflexivity) ltac:(simpl; lia)).
Defined.

(** X9: the connected user empties the sender field. *)
Lemma clearing_identity_witness :
  senderId connected = "u1"
  /\ ws_open (step connected (ChangeSender "")) = false
  /\ length (sockets (step connected (ChangeSender ""))) = 1.
Proof.
  split; [vm_compute; reflexivity|].
  destruct (clearing_identity_disconnects (RT := Reference.runtime) connected
              ltac:(discriminate)) as (_ & H2 & H3).
  split; [exact H2|exact H3].
Defined.

(** X10: the retry queued by "u1" runs after the identity has become
    "u2": the page is connected as "u1" again. *)
Lemma stale_retry_witness :
  let s' := run_task (fire {| tid := 1; due := 300;
                              cb := CbSendMsg {| c_senderId := "u1"; c_receiverId := "";
                                                 c_msg := "" |} |}) stale_retry in
  senderId stale_retry = "u2"
  /\ lastSender stale_retry = "u2"
  /\ lastSender s' = "u1"
  /\ senderId s' = "u2"
  /\ ws_current s' = Some 3.
Proof.
  cbv zeta.
  destruct (retry_connects_as_captured (RT := Reference.runtime) 1 300
              {| c_senderId := "u1"; c_receiverId := ""; c_msg := "" |}
              stale_retry ltac:(vm_compute; reflexivity) ltac:(discriminate)
              ltac:(vm_compute; reflexivity))
    as (_ & H2 & H3 & H4 & _).
  split; [vm_compute; reflexivity|]. split; [vm_compute; reflexivity|].
  split; [exact H3|]. split; [exact H4|exact H2].
Defined.

(** X11: the socket of the connected page. *)
Lemma sockets_addressed_witness :
  (forall h w, sockets connected !! h = Some w ->
               url w = WS_BASE_URL +:+ ws_senderId w /\ ws_senderId w <> "")
  /\ lastSender connected = "u1".
Proof.
  destruct (sockets_are_addressed (RT := Reference.runtime) connected
              (reachable_run init _ reachable_init)) as [H1 _].
  split; [exact H1|reflexivity].
Defined.

(** X12: the network closes the channel of the connected page; a second
    later nothing has been reconnected. *)
Lemma no_reconnect_witness :
  ws_open (ticks 1000 (step connected (NetClose 0))) = false
  /\ sockets (ticks 1000 (step connected (NetClose 0)))
     = sockets (step connected (NetClose 0)).
Proof.
  assert (no_retry_pending connected) as Hquiet.
  { intros t c Hin. vm_compute in Hin. apply elem_of_nil in Hin. contradiction. }
  destruct (no_reconnect_without_user (RT := Reference.runtime) connected 0
              Hquiet ltac:(vm_compute; reflexivity)) as (_ & _ & _ & H).
  destruct (H 1000) as (H1 & _ & H3).
  split; [exact H3|exact H1].
Defined.

(** X13: three input events in a row leave one timer. *)
Lemma one_debounce_witness :
  length (typing_timers (run connected [Input "h"; Input "he"; Input "hel"])) <= 1.
Proof.
  destruct (one_debounce_timer (RT := Reference.runtime)
              (run connected [Input "h"; Input "he"; Input "hel"])
              (reachable_run _ _ reachable_connected)) as [H _].
  exact H.
Defined.

(** X14: a retry is pending when the user types. *)
Lemma typing_keeps_retries_witness :
  let s := run init [ChangeSender "u1"; ClickSend] in
  let t := {| tid := 1; due := 300;
              cb := CbSendMsg {| c_senderId := "u1"; c_receiverId := ""; c_msg := "" |} |} in
  timers s = [t] /\ t ∈ timers (step s (Input "h")).
Proof.
  cbv zeta.
  assert (timers (run init [ChangeSender "u1"; ClickSend])
          = [{| tid := 1; due := 300;
                cb := CbSendMsg {| c_senderId := "u1"; c_receiverId := "";
                                   c_msg := "" |} |}]) as Ht
    by (vm_compute; reflexivity).
  split; [exact Ht|].
  destruct (typing_keeps_retries (RT := Reference.runtime)
              (run init [ChangeSender "u1"; ClickSend]) "h"
              (reachable_run init _ reachable_init)) as [H _].
  apply (H _ {| c_senderId := "u1"; c_receiverId := ""; c_msg := "" |}).
  - rewrite Ht. apply list_elem_of_here.
  - reflexivity.
Defined.

(** X15: a notice, a message and a typing notice have arrived. *)
Lemma log_keys_witness :
  let s := run connected
             [NetMessage 0 (JSON_stringify
                              (message_event {| c_senderId := "u2"; c_receiverId := "u1";
                                                c_msg := "hi" |}));
              NetMessage 0 (JSON_stringify
                              (typing_event {| c_senderId := "u2"; c_receiverId := "u1";
                                               c_msg := "" |}))] in
  log s = [Plain "WebSocket connected"; Elem_b 1 (Some (JStr "u2")); Plain " hi";
           Elem_i 3 (Some (JStr "u2"))]
  /\ forall i k v,
       log s !! i = Some (Elem_i k v) \/ log s !! i = Some (Elem_b k v) -> k = i.
Proof.
  cbv zeta. split; [reflexivity|].
  destruct (log_keys_are_positions (RT := Reference.runtime) _
              (reachable_run _
                 [NetMessage 0 (JSON_stringify
                                  (message_event {| c_senderId := "u2"; c_receiverId := "u1";
                                                    c_msg := "hi" |}));
                  NetMessage 0 (JSON_stringify
                                  (typing_event {| c_senderId := "u2"; c_receiverId := "u1";
                                                   c_msg := "" |}))]
                 reachable_connected)) as [H _].
  exact H.
Defined.

(** X16: the user connects as "u1" again before the socket is open. *)
Lemma connect_while_connecting_witness :
  connectWS "u1" connecting = Ret tt (reconnected "u1" connecting)
  /\ sockets (reconnected "u1" connecting)
     = [{| url := WS_BASE_URL +:+ "u1"; readyState := 2; ws_senderId := "u1" |};
        {| url := WS_BASE_URL +:+ "u1"; readyState := 0; ws_senderId := "u1" |}].
Proof.
  destruct (connect_while_connecting_restarts (RT := Reference.runtime) "u1" 0
              {| url := WS_BASE_URL +:+ "u1"; readyState := 0; ws_senderId := "u1" |}
              connecting ltac:(discriminate) ltac:(vm_compute; reflexivity)
              ltac:(vm_compute; reflexivity) ltac:(vm_compute; reflexivity)
              ltac:(vm_compute; reflexivity)) as (H1 & H2 & _).
  split; [exact H1|exact H2].
Defined.

(** X17: the draft "hi" is sent while connecting; the new socket opens
    120 ms later; the message goes out at 300 ms. *)
Lemma send_goes_out_witness :
  let h := length (sockets drafted) in
  let s2 := ticks (300 - 120)
              (step (ticks 120 (step drafted ClickSend)) (NetOpen h)) in
  h = 1
  /\ msg drafted = "hi"
  /\ wire s2
     = wire drafted ++ [(h, JSON_stringify (message_event (render_closure drafted)))]
  /\ msg s2 = ""
  /\ timers s2 = [].
Proof.
  cbv zeta.
  split; [vm_compute; reflexivity|]. split; [vm_compute; reflexivity|].
  destruct (send_goes_out_once_open (RT := Reference.runtime) drafted 120
              ltac:(vm_compute; reflexivity) ltac:(vm_compute; reflexivity)
              ltac:(vm_compute; discriminate) ltac:(vm_compute; reflexivity)
              ltac:(lia))
    as (_ & _ & _ & H4 & H5 & H6 & _).
  split; [exact H4|]. split; [exact H5|exact H6].
Defined.
